(** * Progress-estimation pipeline: regex extraction, analyzers, consolidator

    A shallow embedding of [agents.py] ([analyze_image],
    [consolidate_analysis]) and of [project_mamangement.py]
    ([analyze_images]).

    Modelling conventions
    - A Python [str] is a [string] whose characters are the code points
      below 256; the classes [\d] and [\s] are the ones [re] uses on that
      range: '0'..'9', and the white space characters 9-13, 28-32, 133
      and 160.
    - A Python [float] is an exact rational of [Q]: [float(text)] is the
      number the decimal numeral denotes, [+] and [/] are exact.  Rounding
      to binary64 is the tolerance the specification speaks of.
    - An exception is a value [Raise e]; code that may raise, print or draw
      random numbers runs in the monad [M] below. *)

From Stdlib Require Import List String Ascii Bool Arith ZArith NArith QArith Lia Lqa.
From Stdlib Require DecimalString DecimalN DecimalPos.
Import ListNotations.

Local Close Scope Q_scope.
Local Open Scope string_scope.

(* ------------------------------------------------------------------ *)
(** ** Character classes of the [re] module *)

Module Re.

(** [\d] *)
Definition is_digit (c : ascii) : bool :=
  let n := nat_of_ascii c in (48 <=? n)%nat && (n <=? 57)%nat.

(** [\s] *)
Definition is_space (c : ascii) : bool :=
  let n := nat_of_ascii c in
  ((9 <=? n)%nat && (n <=? 13)%nat) || ((28 <=? n)%nat && (n <=? 32)%nat)
  || (n =? 133)%nat || (n =? 160)%nat.

Inductive cclass : Type :=
| Digit                 (* \d *)
| Space                 (* \s *)
| Lit (c : ascii).      (* a literal character, such as \. or % *)

Definition in_class (k : cclass) (c : ascii) : bool :=
  match k with
  | Digit => is_digit c
  | Space => is_space c
  | Lit c' => Ascii.eqb c c'
  end.

(** The fragment of the pattern language the program uses.  Repetitions
    are the greedy ones. *)
Inductive regex : Type :=
| Cls (k : cclass)
| Seq (r1 r2 : regex)
| Star (r : regex)              (* r*  *)
| Opt (r : regex)               (* r?  *)
| Group (n : nat) (r : regex).  (* the n-th parenthesis *)

(** r+ *)
Definition Plus (r : regex) : regex := Seq r (Star r).

(** Spans of the groups that took part in the match: [(n, (start, end))]. *)
Definition spans := list (nat * (nat * nat)).

Fixpoint span_of (n : nat) (g : spans) : option (nat * nat) :=
  match g with
  | [] => None
  | (m, se) :: g' => if Nat.eqb m n then Some se else span_of n g'
  end.

(** A greedy repetition of [body]: it tries one more iteration before it
    tries to go on with [k]; an iteration that consumes nothing ends the
    repetition.  Every iteration consumes a character, so the length of
    the string is fuel enough. *)
Fixpoint star_loop {A : Type}
    (body : nat -> string -> spans -> (nat -> string -> spans -> option A) -> option A)
    (k : nat -> string -> spans -> option A)
    (fuel : nat) (pos : nat) (s : string) (g : spans) {struct fuel} : option A :=
  match fuel with
  | O => k pos s g
  | S fuel' =>
      match body pos s g
              (fun pos' s' g' =>
                 if (String.length s' <? String.length s)%nat
                 then star_loop body k fuel' pos' s' g' else None) with
      | Some m => Some m
      | None => k pos s g
      end
  end.

(** Backtracking matcher in continuation-passing style.  [pos] is the
    index of the first character of [s] in the subject string; [k] is
    what remains to be matched after [r]. *)
Fixpoint bt {A : Type} (r : regex) (pos : nat) (s : string) (g : spans)
            (k : nat -> string -> spans -> option A) {struct r} : option A :=
  match r with
  | Cls c =>
      match s with
      | String x s' => if in_class c x then k (S pos) s' g else None
      | EmptyString => None
      end
  | Seq r1 r2 =>
      bt r1 pos s g (fun pos' s' g' => bt r2 pos' s' g' k)
  | Star r' =>
      star_loop (bt r') k (String.length s) pos s g
  | Opt r' =>
      match bt r' pos s g k with
      | Some m => Some m
      | None => k pos s g
      end
  | Group n r' =>
      bt r' pos s g (fun pos' s' g' => k pos' s' ((n, (pos, pos')) :: g'))
  end.

(** A match object: the subject string and the spans of its groups. *)
Record Match : Type := mkMatch { m_string : string; m_spans : spans }.

(** [m.group(n)]: [None] when the group took no part in the match. *)
Definition group (m : Match) (n : nat) : option string :=
  match span_of n (m_spans m) with
  | Some (st, en) => Some (substring st (en - st) (m_string m))
  | None => None
  end.

(** [scan r subject pos s]: the leftmost match of [r] at or after index
    [pos], where [s] is the subject from [pos] on. *)
Fixpoint scan (r : regex) (subject : string) (pos : nat) (s : string) : option Match :=
  match bt r pos s [] (fun _ _ g => Some g) with
  | Some g => Some (mkMatch subject g)
  | None =>
      match s with
      | EmptyString => None
      | String _ s' => scan r subject (S pos) s'
      end
  end.

(** [re.search(r, subject)] *)
Definition search (r : regex) (subject : string) : option Match :=
  scan r subject 0 subject.

End Re.

Import Re.

(** The pattern of both analyzers: [(\d+(\.\d+)?)\s*%?] *)
Definition progress_re : regex :=
  Seq (Group 1 (Seq (Plus (Cls Digit))
                    (Opt (Group 2 (Seq (Cls (Lit ".")) (Plus (Cls Digit)))))))
      (Seq (Star (Cls Space)) (Opt (Cls (Lit "%")))).

(* ------------------------------------------------------------------ *)
(** ** Exceptions, output and randomness *)

Module Py.

(** An exception derived from [Exception]: its class and its message.
    ([KeyboardInterrupt] and the like, which [except Exception] lets
    through, are not raised by the calls of this program.) *)
Inductive exn : Type := Exception (cls : string) (msg : string).

Definition str_of_exn (e : exn) : string :=
  match e with Exception _ msg => msg end.

Inductive Exc (A : Type) : Type :=
| Return (a : A)
| Raise (e : exn).
Arguments Return {A} a.
Arguments Raise {A} e.

(** What a run changes: the lines printed, the number of random numbers
    drawn and the number of requests sent to the hosted model. *)
Record Env : Type := mkEnv {
  stdout : list string;
  draws : nat;
  requests : nat
}.

(** What a run cannot control.
    - [uniform k a b] is the value of the [k]-th call of the random number
      generator when that call is [random.uniform(a, b)];
    - [generate_content_stream k model uri prompt] is the reply to the
      [k]-th request: the [text] of each chunk delivered ([None] for a
      chunk without text) and the exception that ended the stream, if any. *)
Record World : Type := mkWorld {
  uniform : nat -> Q -> Q -> Q;
  generate_content_stream :
    nat -> string -> string -> string -> list (option string) * option exn
}.

(** [random.uniform(a, b)] returns a number between [a] and [b]. *)
Definition uniform_in_range (w : World) : Prop :=
  forall k a b, (a <= b -> a <= uniform w k a b <= b)%Q.

Definition M (A : Type) : Type := Env -> Exc A * Env.

Definition ret {A : Type} (a : A) : M A := fun e => (Return a, e).

Definition raise {A : Type} (x : exn) : M A := fun e => (Raise x, e).

Definition bind {A B : Type} (m : M A) (f : A -> M B) : M B :=
  fun e =>
    match m e with
    | (Return a, e') => f a e'
    | (Raise x, e') => (Raise x, e')
    end.

(** [try: body  except Exception as x: handler x] *)
Definition try_except {A : Type} (body : M A) (handler : exn -> M A) : M A :=
  fun e =>
    match body e with
    | (Return a, e') => (Return a, e')
    | (Raise x, e') => handler x e'
    end.

Definition lift {A : Type} (r : Exc A) : M A := fun e => (r, e).

Definition print (line : string) : M unit :=
  fun e => (Return tt, mkEnv (stdout e ++ [line]) (draws e) (requests e)).

Definition random_uniform (w : World) (a b : Q) : M Q :=
  fun e => (Return (uniform w (draws e) a b),
            mkEnv (stdout e) (S (draws e)) (requests e)).

(** The double quote character. *)
Definition dquote : string := String (ascii_of_nat 34) EmptyString.

(** [response_text += chunk.text] for the chunks of a stream; adding
    [None] to a [str] is a [TypeError]. *)
Fixpoint concat_chunks (response_text : string) (chunks : list (option string))
  : Exc string :=
  match chunks with
  | [] => Return response_text
  | Some text :: rest => concat_chunks (response_text ++ text) rest
  | None :: _ =>
      Raise (Exception "TypeError"
               ("can only concatenate str (not " ++ dquote ++ "NoneType" ++ dquote
                ++ ") to str"))
  end.

(** The loop [for chunk in client.models.generate_content_stream(...):
    response_text += chunk.text], started with [response_text = ""]. *)
Definition stream_response (w : World) (model uri prompt : string) : M string :=
  fun e =>
    let e' := mkEnv (stdout e) (draws e) (S (requests e)) in
    match generate_content_stream w (requests e) model uri prompt with
    | (chunks, failure) =>
        match concat_chunks "" chunks with
        | Raise x => (Raise x, e')
        | Return response_text =>
            match failure with
            | Some x => (Raise x, e')
            | None => (Return response_text, e')
            end
        end
    end.

End Py.

Import Py.

Declare Scope py_scope.
Delimit Scope py_scope with py.
Notation "x <- m ;; k" := (bind m (fun x => k))
  (at level 61, m at next level, right associativity) : py_scope.
Notation "m ;; k" := (bind m (fun _ => k))
  (at level 61, right associativity) : py_scope.

(* ------------------------------------------------------------------ *)
(** ** Numbers and their text *)

(** The longest prefix of [s] whose characters satisfy [p], and the rest. *)
Fixpoint span_while (p : ascii -> bool) (s : string) : string * string :=
  match s with
  | EmptyString => (EmptyString, EmptyString)
  | String c s' =>
      if p c then let (d, r) := span_while p s' in (String c d, r)
      else (EmptyString, s)
  end.

Definition digit_value (c : ascii) : N := (N_of_ascii c - 48)%N.

(** The natural number a string of digits denotes (Horner's rule). *)
Fixpoint digits_value (acc : N) (s : string) : N :=
  match s with
  | EmptyString => acc
  | String c s' => digits_value (acc * 10 + digit_value c)%N s'
  end.

Definition Q_of_N (n : N) : Q := inject_Z (Z.of_N n).

(** [float(s)] for a plain numeral [s]: digits, then possibly a point and
    more digits.  These are the only strings the program passes to
    [float]; the other forms that [float] accepts (sign, exponent, white
    space, [inf], ...) are not modelled and answer [ValueError] here. *)
Definition float (s : string) : Exc Q :=
  let bad := Raise (Exception "ValueError" ("could not convert string to float: " ++ s)) in
  match span_while is_digit s with
  | (EmptyString, _) => bad
  | (i, EmptyString) => Return (Q_of_N (digits_value 0 i))
  | (i, String "." f) =>
      match span_while is_digit f with
      | (String c fd, EmptyString) =>
          Return (Q_of_N (digits_value 0 i)
                  + Q_of_N (digits_value 0 (String c fd))
                    / Q_of_N (10 ^ N.of_nat (String.length (String c fd))))%Q
      | _ => bad
      end
  | _ => bad
  end.

(** Nearest integer, ties to the even one. *)
Definition round_half_even (x : Q) : Z :=
  let n := Qnum x in
  let d := Zpos (Qden x) in
  let q := (n / d)%Z in
  match (2 * (n mod d) ?= d)%Z with
  | Lt => q
  | Gt => (q + 1)%Z
  | Eq => if Z.even q then q else (q + 1)%Z
  end.

Definition decimal (n : Z) : string :=
  DecimalString.NilEmpty.string_of_uint (N.to_uint (Z.to_N n)).

(** [f"{x:.1f}"] *)
Definition format_1f (x : Q) : string :=
  let tenths := Z.abs (round_half_even (x * 10)%Q) in
  (if Qle_bool 0%Q x then "" else "-")
  ++ decimal (tenths / 10) ++ "." ++ decimal (tenths mod 10).

(* ------------------------------------------------------------------ *)
(** ** The two lines shared by both analyzers *)

(** [progress_match = re.search(r"(\d+(\.\d+)?)\s*%?", response_text)]
    [progress_estimate = float(progress_match.group(1)) if progress_match else 0.0] *)
Definition progress_estimate (response_text : string) : Exc Q :=
  match search progress_re response_text with
  | Some progress_match =>
      match group progress_match 1 with
      | Some text => float text
      | None =>
          Raise (Exception "TypeError"
                   "float() argument must be a string or a real number, not 'NoneType'")
      end
  | None => Return 0%Q
  end.

(** The text of the fallback narrative. *)
Definition simulated_text (image_uri : string) (simulated_progress : Q) : string :=
  "Simulated analysis for image " ++ image_uri
  ++ ". The site appears to be at approximately "
  ++ format_1f simulated_progress
  ++ "% progress with visible structural developments.".

(** The handler of both analyzers. *)
Definition simulate (w : World) (image_uri : string) (e : exn) : M string :=
  (print ("Error with Gemini client for image " ++ image_uri ++ ": "
          ++ str_of_exn e ++ ". Using simulated analysis.") ;;
   simulated_progress <- random_uniform w 50%Q 100%Q ;;
   ret (simulated_text image_uri simulated_progress))%py.

(** An entry of the image metadata list.  Every entry has the key
    [image_uri], which both loops read before they enter the [try]. *)
Module Metadata.
Record t : Type := mk {
  image_uri : string;
  date : string;
  other_metadata : list (string * Q)
}.
End Metadata.

(** A [dict] from [str] to [str], and [d.get(key, default)]. *)
Definition dict := list (string * string).

Fixpoint dict_get (d : dict) (key default : string) : string :=
  match d with
  | [] => default
  | (k, v) :: d' => if String.eqb k key then v else dict_get d' key default
  end.

Definition newline : string := String (ascii_of_nat 10) EmptyString.

(* ------------------------------------------------------------------ *)
(** ** agents.py *)

Module Agents.

Definition SAMPLE_IMAGE_METADATA : list Metadata.t :=
  [ Metadata.mk "gs://site_comparisons/Project_images/Project_Aug_1.png"
      "2023-08-13" [("cloud_cover", 0.2%Q)];
    Metadata.mk "gs://site_comparisons/Project_images/Project_Nov_1.png"
      "2023-11-29" [("cloud_cover", 0.1%Q)];
    Metadata.mk "gs://site_comparisons/Project_images/Project_Dec_1.png"
      "2023-12-08" [("cloud_cover", 0.1%Q)] ].

(** An entry of the list [analyze_image] returns:
    [{"analysis": ..., "progress": ...}]. *)
Record Analysis : Type := mkAnalysis {
  analysis : string;
  progress : Q
}.

(** The keys of that dictionary. *)
Definition keys (r : Analysis) : list string := ["analysis"; "progress"].

Definition prompt_text (project_details : dict) : string :=
  "Analyze this satellite image of a construction site for a "
  ++ dict_get project_details "project_type" "construction project" ++ "." ++ newline
  ++ "Consider the current state of progress, potential issues, and the overall timeline. Provide specific details about what you observe in the image."
  ++ newline
  ++ "The project name is " ++ dict_get project_details "project_name" "unknown" ++ ".".

(** The body of the [try].  Building the client, the parts and the
    configuration sends nothing and is left out.  [project_details] is a
    name the module reads and never binds: [None] stands for the unbound
    name, whose evaluation raises [NameError] inside the [try]. *)
Definition request (w : World) (project_details : option dict) (image_uri : string)
  : M string :=
  match project_details with
  | None => raise (Exception "NameError" "name 'project_details' is not defined")
  | Some details =>
      stream_response w "gemini-2.0-flash-001" image_uri (prompt_text details)
  end.

(** One iteration of the loop of [analyze_image]. *)
Definition analyze_one (w : World) (project_details : option dict)
    (image_metadata : Metadata.t) : M Analysis :=
  let image_uri := Metadata.image_uri image_metadata in
  (response_text <- try_except (request w project_details image_uri)
                               (simulate w image_uri) ;;
   progress_estimate <- lift (progress_estimate response_text) ;;
   ret (mkAnalysis response_text progress_estimate))%py.

Fixpoint analyze_loop (w : World) (project_details : option dict)
    (image_metadata_list : list Metadata.t) (analysis_results : list Analysis)
  : M (list Analysis) :=
  match image_metadata_list with
  | [] => ret analysis_results
  | image_metadata :: rest =>
      (result <- analyze_one w project_details image_metadata ;;
       analyze_loop w project_details rest (analysis_results ++ [result]))%py
  end.

Definition analyze_image {ToolContext : Type} (tool_context : ToolContext)
    (w : World) (project_details : option dict)
    (image_metadata_list : list Metadata.t) : M (list Analysis) :=
  analyze_loop w project_details image_metadata_list [].

(** The dictionary [consolidate_analysis] returns. *)
Record Report : Type := mkReport {
  timeline : list Analysis;
  overall_progress : Q;
  estimated_completion : string
}.

(** The loop of [consolidate_analysis], on its two accumulators. *)
Fixpoint consolidate_loop (image_analyses : list Analysis)
    (timeline : list Analysis) (total_progress : Q) : list Analysis * Q :=
  match image_analyses with
  | [] => (timeline, total_progress)
  | a :: rest =>
      consolidate_loop rest
        (timeline ++ [mkAnalysis (analysis a) (progress a)])
        (total_progress + progress a)%Q
  end.

Definition consolidate_analysis {ToolContext : Type} (tool_context : ToolContext)
    (image_analyses : list Analysis) : M Report :=
  (print "Consolidating analysis from individual images..." ;;
   let num_analyses := List.length image_analyses in
   let (timeline, total_progress) := consolidate_loop image_analyses [] 0%Q in
   let overall_progress :=
     if (0 <? num_analyses)%nat
     then (total_progress / inject_Z (Z.of_nat num_analyses))%Q
     else 0%Q in
   let estimated_completion := "2024-06-01" in
   ret (mkReport timeline overall_progress estimated_completion))%py.

End Agents.

(* ------------------------------------------------------------------ *)
(** ** project_mamangement.py *)

Module ProjectManagement.

Definition SAMPLE_IMAGE_METADATA : list Metadata.t :=
  [ Metadata.mk
      "https://storage.googleapis.com/site_comparisons/Project_images/Project_Aug_1.png"
      "2023-08-13" [("cloud_cover", 0.2%Q)];
    Metadata.mk
      "https://storage.googleapis.com/site_comparisons/Project_images/Project_Nov_1.png"
      "2023-11-29" [("cloud_cover", 0.1%Q)];
    Metadata.mk
      "https://storage.googleapis.com/site_comparisons/Project_images/Project_Dec_1.png"
      "2023-12-08" [("cloud_cover", 0.1%Q)] ].

(** An entry of the list [analyze_images] returns:
    [{"image_uri": ..., "description": ..., "progress": ...}]. *)
Record Analysis : Type := mkAnalysis {
  image_uri : string;
  description : string;
  progress : Q
}.

(** The keys of that dictionary. *)
Definition keys (r : Analysis) : list string := ["image_uri"; "description"; "progress"].

Definition prompt_text : string :=
  "Analyze this satellite image of a construction site. "
  ++ "Consider the current state of progress, potential issues, and the overall timeline. "
  ++ "Provide specific details about what you observe in the image.".

(** One iteration of the loop of [analyze_images].  Only the stream is
    inside the [try]; the client, built once before the loop, the parts
    and the configuration are built outside it, which sends nothing and is
    left out. *)
Definition analyze_one (w : World) (image_metadata : Metadata.t) : M Analysis :=
  let image_uri := Metadata.image_uri image_metadata in
  (response_text <- try_except
                      (stream_response w "gemini-2.0-flash-001" image_uri prompt_text)
                      (simulate w image_uri) ;;
   progress_estimate <- lift (progress_estimate response_text) ;;
   ret (mkAnalysis image_uri response_text progress_estimate))%py.

Fixpoint analyze_loop (w : World) (image_metadata_list : list Metadata.t)
    (analysis_results : list Analysis) : M (list Analysis) :=
  match image_metadata_list with
  | [] => ret analysis_results
  | image_metadata :: rest =>
      (result <- analyze_one w image_metadata ;;
       analyze_loop w rest (analysis_results ++ [result]))%py
  end.

Definition analyze_images (w : World) (image_metadata_list : list Metadata.t)
  : M (list Analysis) :=
  analyze_loop w image_metadata_list [].

End ProjectManagement.

(* ------------------------------------------------------------------ *)
(** ** Predicates on strings *)

(** The characters of [s] all satisfy [p]. *)
Fixpoint all_chars (p : ascii -> bool) (s : string) : bool :=
  match s with
  | EmptyString => true
  | String c s' => p c && all_chars p s'
  end.

(** [r] is empty or starts with a character outside [p]: a run of [p]
    ends there. *)
Definition stops (p : ascii -> bool) (r : string) : Prop :=
  match r with
  | EmptyString => True
  | String c _ => p c = false
  end.

(** [s] holds no digit. *)
Definition no_digit (s : string) : bool := all_chars (fun c => negb (is_digit c)) s.

(** The texts group 1 can hold. *)
Inductive numeral : string -> Prop :=
| numeral_int (i : string) :
    i <> "" -> all_chars is_digit i = true -> numeral i
| numeral_frac (i f : string) :
    i <> "" -> all_chars is_digit i = true ->
    f <> "" -> all_chars is_digit f = true -> numeral (i ++ "." ++ f).

(* ------------------------------------------------------------------ *)
(** ** The extraction, as the specification words it *)

Module Spec.

(** The run of digits at the head of [s], with the decimal fraction that
    follows it when there is one. *)
Definition numeral_at (s : string) : string :=
  let (d, r) := span_while is_digit s in
  match r with
  | String "." r' =>
      match span_while is_digit r' with
      | (EmptyString, _) => d
      | (f, _) => d ++ "." ++ f
      end
  | _ => d
  end.

(** The first (leftmost) such run of [s]. *)
Fixpoint first_numeral (s : string) : option string :=
  match s with
  | EmptyString => None
  | String c s' => if is_digit c then Some (numeral_at s) else first_numeral s'
  end.

(** The number a numeral denotes: its digits read as one natural number,
    scaled down by one power of ten per digit of the fraction. *)
Definition numeral_value (t : string) : Q :=
  let (i, r) := span_while is_digit t in
  match r with
  | String "." f =>
      (Q_of_N (digits_value 0 (i ++ f)) / Q_of_N (10 ^ N.of_nat (String.length f)))%Q
  | _ => Q_of_N (digits_value 0 i)
  end.

Definition progress_percent (narrative : string) : Q :=
  match first_numeral narrative with
  | Some t => numeral_value t
  | None => 0%Q
  end.

(** The arithmetic mean of [p_1 .. p_n]. *)
Definition sum (ps : list Q) : Q := fold_right Qplus 0%Q ps.

Definition mean (ps : list Q) : Q :=
  (sum ps / inject_Z (Z.of_nat (List.length ps)))%Q.

End Spec.

(* ------------------------------------------------------------------ *)
(** ** Worlds for the examples *)

Definition env0 : Env := mkEnv [] 0 0.

(** The hosted model is down: every request fails. *)
Definition w_down : World :=
  mkWorld (fun _ a b => ((a + b) / 2)%Q)
          (fun _ _ _ _ => ([], Some (Exception "ServerError" "503 Service Unavailable"))).

(** The hosted model answers with a percentage above one hundred. *)
Definition w_over : World :=
  mkWorld (fun _ a b => ((a + b) / 2)%Q)
          (fun _ _ _ _ => ([Some "Work stands at 150% "; Some "of the planned volume."], None)).

Definition plain_image : Metadata.t :=
  Metadata.mk "gs://bucket/site.png" "2023-08-13" [].

(** Unfolds the monad in a goal about one run. *)
Ltac run_monad :=
  cbv beta iota delta [bind try_except lift ret raise simulate print random_uniform];
  cbn [fst snd stdout draws requests].

(* ------------------------------------------------------------------ *)
(** ** agents.py: the tools of the agent that orders images *)

(** [c.lower()] for a code point below 256: the letters A-Z and the
    capital letters 192-222 other than the sign 215 move up by 32. *)
Definition lower_char (c : ascii) : ascii :=
  let n := nat_of_ascii c in
  if ((65 <=? n)%nat && (n <=? 90)%nat)
     || ((192 <=? n)%nat && (n <=? 222)%nat && negb (n =? 215)%nat)
  then ascii_of_nat (n + 32) else c.

(** [s.lower()] *)
Fixpoint lower (s : string) : string :=
  match s with
  | EmptyString => EmptyString
  | String c s' => String (lower_char c) (lower s')
  end.

(** [str(n)] for an [int]. *)
Definition str_int (n : Z) : string :=
  if (n <? 0)%Z then "-" ++ decimal (- n) else decimal n.

(** [random.randint(a, b)]; [randint k a b] is the value of the [k]-th
    call of the random number generator when that call is this one. *)
Definition random_randint (randint : nat -> Z -> Z -> Z) (a b : Z) : M Z :=
  fun e => (Return (randint (draws e) a b),
            mkEnv (stdout e) (S (draws e)) (requests e)).

(** [random.randint(a, b)] returns an integer between [a] and [b]. *)
Definition randint_in_range (randint : nat -> Z -> Z -> Z) : Prop :=
  forall k a b, (a <= b -> a <= randint k a b <= b)%Z.

Module ImageOrdering.

(** The dictionary under the key ["recommendations"]. *)
Record Recommendations : Type := mkRecommendations {
  frequency : string;
  resolution : string;
  spectral_bands : list string
}.

(** The dictionary [recommend_image_specs] returns. *)
Record Recommended : Type := mkRecommended {
  recommendations : Recommendations
}.

Definition recommend_image_specs {ToolContext : Type} (tool_context : ToolContext)
    (project_type : string) : M Recommended :=
  (print ("Recommending image specifications for project type: " ++ project_type) ;;
   let recommendations :=
     if String.eqb (lower project_type) "building"
     then mkRecommendations "monthly" "0.5m" ["RGB"; "NIR"]
     else if String.eqb (lower project_type) "road"
     then mkRecommendations "bi-weekly" "1m" ["RGB"]
     else mkRecommendations "monthly" "1m" ["RGB"] in
   ret (mkRecommended recommendations))%py.

(** The dictionary [order_images] returns. *)
Record Order : Type := mkOrder {
  order_status : string;
  order_id : string
}.

(** [recommendations] is any dictionary; [str] is its text in an
    f-string. *)
Definition order_images {ToolContext R : Type} (str : R -> string)
    (randint : nat -> Z -> Z -> Z)
    (tool_context : ToolContext) (recommendations : R) : M Order :=
  (print ("Ordering images with specifications: " ++ str recommendations) ;;
   n <- random_randint randint 1000 9999 ;;
   let simulated_order_id := "order_" ++ str_int n in
   print ("Image order placed successfully with order ID: " ++ simulated_order_id) ;;
   ret (mkOrder "placed" simulated_order_id))%py.

End ImageOrdering.

(* ------------------------------------------------------------------ *)
(** ** project_mamangement.py: the executive summary *)

Module ExecutiveSummary.

(** [str] is the text of the list of results in the f-string. *)
Definition summary_prompt (str : list ProjectManagement.Analysis -> string)
    (analysis_results : list ProjectManagement.Analysis) : string :=
  "Provide an executive summary for a construction project. Highlight the % of the project completed and estimation of time to finish the project. "
  ++ newline ++ "        " ++ str analysis_results ++ newline
  ++ "        Include key observations from the image analysis, potential risks, and strategic recommendations, including the frequency of satellite imagery needed for continued monitoring.".

(** The request carries the prompt alone: it has no image, which the
    empty locator stands for.  Building the client sends nothing and is
    left out; the [try] around the stream is commented out in the source. *)
Definition generate_executive_summary
    (str : list ProjectManagement.Analysis -> string) (w : World)
    (analysis_results : list ProjectManagement.Analysis) : M string :=
  stream_response w "gemini-1.5-pro-002" "" (summary_prompt str analysis_results).

End ExecutiveSummary.

(* ------------------------------------------------------------------ *)
(** ** Helpers of the statements *)

(** The texts of a list of chunks, joined. *)
Definition join (texts : list string) : string := fold_right append "" texts.

(** The narratives of a run of [analyze_image] in which every iteration
    takes the fallback, the first one with the [k]-th random number. *)
Fixpoint fallback_narratives (w : World) (k : nat) (imgs : list Metadata.t)
  : list string :=
  match imgs with
  | [] => []
  | im :: rest =>
      simulated_text (Metadata.image_uri im) (uniform w k 50%Q 100%Q)
      :: fallback_narratives w (S k) rest
  end.

(** [rest] starts with a digit, or with a point and a digit: a numeral
    that stands before it goes on into it. *)
Definition goes_on (rest : string) : bool :=
  match rest with
  | EmptyString => false
  | String c r =>
      is_digit c
      || (Ascii.eqb c "."
          && match r with String d _ => is_digit d | EmptyString => false end)
  end.

(** The integers [lo], [lo + 1], ..., [lo + n - 1]. *)
Definition Z_range (lo n : Z) : list Z :=
  map (fun i => (lo + Z.of_nat i)%Z) (seq 0 (Z.to_nat n)).

(** The hosted model sends a text and then a chunk without text. *)
Definition w_broken : World :=
  mkWorld (fun _ a b => ((a + b) / 2)%Q)
          (fun _ _ _ _ => ([Some "Progress is 80%"; None], None)).

(** A text for a list of results, for the examples. *)
Definition str_count (rs : list ProjectManagement.Analysis) : string :=
  decimal (Z.of_nat (List.length rs)) ++ " results".

(** A generator of random integers for the examples. *)
Definition randint_low (k : nat) (a b : Z) : Z := a.

(* ------------------------------------------------------------------ *)
(** ** Strings *)

Lemma length_append (a b : string) :
  String.length (a ++ b) = (String.length a + String.length b)%nat.
Proof. induction a as [|c a IH]; simpl; [reflexivity | now rewrite IH]. Qed.

Lemma append_nil_r (a : string) : a ++ "" = a.
Proof. induction a as [|c a IH]; simpl; [reflexivity | now rewrite IH]. Qed.

Lemma append_assoc (a b c : string) : (a ++ b) ++ c = a ++ b ++ c.
Proof. induction a as [|x a IH]; simpl; [reflexivity | now rewrite IH]. Qed.

Lemma substring_prefix (d r : string) : substring 0 (String.length d) (d ++ r) = d.
Proof.
  induction d as [|c d IH]; simpl.
  - destruct r; reflexivity.
  - now rewrite IH.
Qed.

Lemma substring_skip (p s : string) (n : nat) :
  substring (String.length p) n (p ++ s) = substring 0 n s.
Proof. induction p as [|c p IH]; simpl; [reflexivity | exact IH]. Qed.

Lemma span_while_append (p : ascii -> bool) (s : string) :
  fst (span_while p s) ++ snd (span_while p s) = s.
Proof.
  induction s as [|c s IH]; simpl; [reflexivity|].
  destruct (p c); [|reflexivity].
  destruct (span_while p s) as [d r]; simpl in *. now rewrite IH.
Qed.

Lemma span_while_all (p : ascii -> bool) (s : string) :
  all_chars p (fst (span_while p s)) = true.
Proof.
  induction s as [|c s IH]; simpl; [reflexivity|].
  destruct (p c) eqn:E; [|reflexivity].
  destruct (span_while p s) as [d r]; simpl in *. now rewrite E, IH.
Qed.

Lemma span_while_run (p : ascii -> bool) (d r : string) :
  all_chars p d = true -> stops p r -> span_while p (d ++ r) = (d, r).
Proof.
  intros Hd Hr. induction d as [|c d IH]; simpl in *.
  - destruct r as [|x r]; simpl in *; [reflexivity | now rewrite Hr].
  - apply andb_true_iff in Hd as [Hc Hd]. now rewrite Hc, IH.
Qed.

Lemma span_while_whole (p : ascii -> bool) (d : string) :
  all_chars p d = true -> span_while p d = (d, "").
Proof.
  intros Hd. pose proof (span_while_run p d "" Hd I) as H.
  now rewrite append_nil_r in H.
Qed.

Lemma span_while_stops (p : ascii -> bool) (s : string) :
  stops p (snd (span_while p s)).
Proof.
  induction s as [|c s IH]; simpl; [exact I|].
  destruct (p c) eqn:E.
  - destruct (span_while p s); exact IH.
  - exact E.
Qed.

(* ------------------------------------------------------------------ *)
(** ** The fuel of a repetition *)

(** The matcher hands to its continuation a suffix of the string it was
    given: two continuations that agree on the strings that are not
    longer give the same result. *)
Lemma bt_ext {A : Type} (r : regex) :
  forall (pos : nat) (s : string) (g : spans)
         (k1 k2 : nat -> string -> spans -> option A),
    (forall pos' s' g',
        (String.length s' <= String.length s)%nat -> k1 pos' s' g' = k2 pos' s' g') ->
    bt r pos s g k1 = bt r pos s g k2.
Proof.
  induction r as [c | r1 IH1 r2 IH2 | r IH | r IH | n r IH];
    intros pos s g k1 k2 Hk; cbn [bt].
  - destruct s as [|x s]; [reflexivity|].
    destruct (in_class c x); [|reflexivity]. apply Hk. cbn. lia.
  - apply IH1. intros pos' s' g' Hlen. apply IH2.
    intros pos'' s'' g'' Hlen'. apply Hk. lia.
  - assert (Hloop : forall fuel pos0 s0 g0,
               (String.length s0 <= String.length s)%nat ->
               star_loop (bt r) k1 fuel pos0 s0 g0 = star_loop (bt r) k2 fuel pos0 s0 g0).
    { induction fuel as [|fuel IHf]; intros pos0 s0 g0 Hlen; cbn [star_loop].
      - now apply Hk.
      - rewrite (IH pos0 s0 g0 _
                   (fun pos' s' g' =>
                      if (String.length s' <? String.length s0)%nat
                      then star_loop (bt r) k2 fuel pos' s' g' else None)).
        + now rewrite (Hk pos0 s0 g0 Hlen).
        + intros pos' s' g' Hlen'.
          destruct (String.length s' <? String.length s0)%nat; [|reflexivity].
          apply IHf. lia. }
    now apply Hloop.
  - rewrite (IH pos s g k1 k2 Hk). now rewrite (Hk pos s g (Nat.le_refl _)).
  - apply IH. intros pos' s' g' Hlen. now apply Hk.
Qed.

(** A match is a result of the continuation. *)
Lemma bt_fails {A : Type} (r : regex) :
  forall (pos : nat) (s : string) (g : spans),
    bt r pos s g (fun _ _ _ => @None A) = None.
Proof.
  induction r as [c | r1 IH1 r2 IH2 | r IH | r IH | n r IH]; intros pos s g; cbn [bt].
  - destruct s as [|x s]; [reflexivity|]. now destruct (in_class c x).
  - rewrite (bt_ext r1 pos s g _ (fun _ _ _ => None)); [apply IH1|].
    intros pos' s' g' _. apply IH2.
  - generalize (String.length s) as fuel. intros fuel. revert pos s g.
    induction fuel as [|fuel IHf]; intros pos s g; cbn [star_loop]; [reflexivity|].
    rewrite (bt_ext r pos s g _ (fun _ _ _ => None)); [now rewrite IH|].
    intros pos' s' g' _.
    destruct (String.length s' <? String.length s)%nat; [apply IHf | reflexivity].
  - now rewrite IH.
  - apply IH.
Qed.

(** Fuel beyond the length of the string changes nothing: a repetition
    never stops for want of fuel. *)
Lemma star_loop_fuel {A : Type} (r : regex)
    (k : nat -> string -> spans -> option A) (fuel : nat) :
  forall (pos : nat) (s : string) (g : spans),
    (String.length s <= fuel)%nat ->
    star_loop (bt r) k fuel pos s g = star_loop (bt r) k (String.length s) pos s g.
Proof.
  induction fuel as [fuel IH] using lt_wf_ind. intros pos s g Hlen.
  destruct fuel as [|fuel].
  - destruct s; [reflexivity | cbn in Hlen; lia].
  - destruct (String.length s) as [|m] eqn:Es.
    + cbn [star_loop].
      rewrite (bt_ext r pos s g _ (fun _ _ _ => None)).
      * now rewrite bt_fails.
      * intros pos' s' g' Hlen'. rewrite Es.
        now destruct (String.length s').
    + cbn [star_loop]. rewrite Es.
      rewrite (bt_ext r pos s g _
                 (fun pos' s' g' =>
                    if (String.length s' <? S m)%nat
                    then star_loop (bt r) k m pos' s' g' else None)); [reflexivity|].
      intros pos' s' g' Hlen'.
      destruct (String.length s' <? S m)%nat eqn:Elt; [|reflexivity].
      apply Nat.ltb_lt in Elt.
      rewrite (IH fuel) by lia. rewrite (IH m) by lia. reflexivity.
Qed.

(* ------------------------------------------------------------------ *)
(** ** The matcher on runs of one character class *)

Section Runs.

Context {A : Type}.
Variable c : cclass.
Variable k : nat -> string -> spans -> option A.

(** A greedy [c*] followed by a continuation that accepts the longest
    run never has to give a character back. *)
Lemma star_loop_run (fuel : nat) :
  forall (pos : nat) (s : string) (g : spans) (x : A),
    (String.length s <= fuel)%nat ->
    k (pos + String.length (fst (span_while (in_class c) s)))
      (snd (span_while (in_class c) s)) g = Some x ->
    star_loop (bt (Cls c)) k fuel pos s g = Some x.
Proof.
  induction fuel as [|fuel IH]; intros pos s g x Hlen Hk.
  - destruct s; [|simpl in Hlen; lia].
    simpl in *. now rewrite Nat.add_0_r in Hk.
  - destruct s as [|a s]; simpl in *.
    + now rewrite Nat.add_0_r in Hk.
    + destruct (in_class c a) eqn:Ea.
      * destruct (span_while (in_class c) s) as [d r] eqn:Es; simpl in *.
        assert (Hlt : (String.length s <? S (String.length s))%nat = true)
          by (apply Nat.ltb_lt; lia).
        rewrite Hlt.
        rewrite (IH (S pos) s g x); [reflexivity | lia |].
        rewrite Es; simpl. now rewrite <- Nat.add_succ_comm in Hk.
      * simpl in Hk. now rewrite Nat.add_0_r in Hk.
Qed.

Lemma bt_star_run (pos : nat) (s : string) (g : spans) (x : A) :
  k (pos + String.length (fst (span_while (in_class c) s)))
    (snd (span_while (in_class c) s)) g = Some x ->
  bt (Star (Cls c)) pos s g k = Some x.
Proof. intros Hk. simpl. now apply star_loop_run. Qed.

(** [c+] on a string that starts with a character of [c]. *)
Lemma bt_plus_run (pos : nat) (a : ascii) (s : string) (g : spans) (x : A) :
  in_class c a = true ->
  k (S pos + String.length (fst (span_while (in_class c) s)))
    (snd (span_while (in_class c) s)) g = Some x ->
  bt (Plus (Cls c)) pos (String a s) g k = Some x.
Proof.
  intros Ha Hk. unfold Plus.
  change (bt (Seq (Cls c) (Star (Cls c))) pos (String a s) g k)
    with (if in_class c a then bt (Star (Cls c)) (S pos) s g k else None).
  rewrite Ha. now apply bt_star_run.
Qed.

(** [c+] fails where no character of [c] stands. *)
Lemma bt_plus_stops (pos : nat) (s : string) (g : spans) :
  stops (in_class c) s -> bt (Plus (Cls c)) pos s g k = None.
Proof.
  intros Hs. destruct s as [|a s]; [reflexivity|].
  simpl in Hs. cbn. now rewrite Hs.
Qed.

End Runs.

(* ------------------------------------------------------------------ *)
(** ** The pattern of the analyzers *)

Lemma bt_seq {A : Type} (r1 r2 : regex) pos s g (k : nat -> string -> spans -> option A) :
  bt (Seq r1 r2) pos s g k = bt r1 pos s g (fun pos' s' g' => bt r2 pos' s' g' k).
Proof. reflexivity. Qed.

Lemma bt_group {A : Type} (n : nat) (r : regex) pos s g
    (k : nat -> string -> spans -> option A) :
  bt (Group n r) pos s g k
  = bt r pos s g (fun pos' s' g' => k pos' s' ((n, (pos, pos')) :: g')).
Proof. reflexivity. Qed.

Lemma bt_opt {A : Type} (r : regex) pos s g (k : nat -> string -> spans -> option A) :
  bt (Opt r) pos s g k
  = match bt r pos s g k with Some m => Some m | None => k pos s g end.
Proof. reflexivity. Qed.

(** [\s*%?] at the end of the pattern matches everywhere. *)
Lemma tail_accepts (pos : nat) (s : string) (g : spans) :
  bt (Seq (Star (Cls Space)) (Opt (Cls (Lit "%")))) pos s g (fun _ _ g' => Some g')
  = Some g.
Proof.
  rewrite bt_seq. apply bt_star_run.
  destruct (snd (span_while (in_class Space) s)) as [|x r]; cbn; [reflexivity|].
  now destruct (Ascii.eqb x "%").
Qed.

(** No match starts where no digit stands. *)
Lemma progress_re_stops (pos : nat) (s : string) :
  stops is_digit s -> bt progress_re pos s [] (fun _ _ g => Some g) = None.
Proof.
  intros Hs. unfold progress_re. rewrite bt_seq, bt_group, bt_seq.
  now apply (bt_plus_stops Digit).
Qed.

(** Where a digit stands, the pattern matches and group 1 spans the
    numeral that starts there. *)
Lemma progress_re_digit (pos : nat) (a : ascii) (s : string) :
  is_digit a = true ->
  exists g, bt progress_re pos (String a s) [] (fun _ _ g' => Some g') = Some g
            /\ span_of 1 g
               = Some (pos, (pos + String.length (Spec.numeral_at (String a s)))%nat).
Proof.
  intros Ha. unfold progress_re, Spec.numeral_at.
  rewrite bt_seq, bt_group, bt_seq.
  cbn [span_while]. rewrite Ha.
  pose proof (span_while_stops is_digit s) as Hstop.
  destruct (span_while is_digit s) as [d r] eqn:Es. simpl in Hstop.
  assert (Hfrac_no :
    bt (Group 2 (Seq (Cls (Lit ".")) (Plus (Cls Digit))))
       (S pos + String.length d) r []
        (fun pos' s' g' =>
           bt (Seq (Star (Cls Space)) (Opt (Cls (Lit "%")))) pos' s'
              ((1, (pos, pos')) :: g') (fun _ _ g'' => Some g'')) = None ->
    exists g,
      bt (Plus (Cls Digit)) pos (String a s) []
        (fun pos' s' g' =>
           bt (Opt (Group 2 (Seq (Cls (Lit ".")) (Plus (Cls Digit))))) pos' s' g'
             (fun pos'' s'' g'' =>
                bt (Seq (Star (Cls Space)) (Opt (Cls (Lit "%")))) pos'' s''
                   ((1, (pos, pos'')) :: g'') (fun _ _ g3 => Some g3))) = Some g
      /\ span_of 1 g = Some (pos, (pos + String.length (String a d))%nat)).
  { intros HNone.
    eexists; split.
    - apply (bt_plus_run Digit); [exact Ha|].
      change (in_class Digit) with is_digit. rewrite Es; cbn [fst snd].
      rewrite bt_opt, HNone. apply tail_accepts.
    - cbn. f_equal. f_equal. lia. }
  destruct r as [|x r'].
  { apply Hfrac_no. reflexivity. }
  destruct (Ascii.eqb x ".") eqn:Ex.
  2:{ assert (Hx : x <> "."%char) by (now apply Ascii.eqb_neq).
      assert (Hgoal : exists g,
        bt (Plus (Cls Digit)) pos (String a s) []
          (fun pos' s' g' =>
             bt (Opt (Group 2 (Seq (Cls (Lit ".")) (Plus (Cls Digit))))) pos' s' g'
               (fun pos'' s'' g'' =>
                  bt (Seq (Star (Cls Space)) (Opt (Cls (Lit "%")))) pos'' s''
                     ((1, (pos, pos'')) :: g'') (fun _ _ g3 => Some g3))) = Some g
        /\ span_of 1 g = Some (pos, (pos + String.length (String a d))%nat)).
      { apply Hfrac_no. rewrite bt_group, bt_seq. cbn. now rewrite Ex. }
      destruct x as [[] [] [] [] [] [] [] []]; try exact Hgoal.
      now contradiction Hx. }
  apply Ascii.eqb_eq in Ex; subst x.
  pose proof (span_while_stops is_digit r') as Hstop'.
  destruct r' as [|b r''].
  { apply Hfrac_no. reflexivity. }
  destruct (is_digit b) eqn:Eb.
  2:{ cbn [span_while]. rewrite Eb.
      apply Hfrac_no. rewrite bt_group, bt_seq. cbn. now rewrite Eb. }
  cbn [span_while]. rewrite Eb.
  destruct (span_while is_digit r'') as [f r3] eqn:Ef.
  eexists; split.
  - apply (bt_plus_run Digit); [exact Ha|].
    change (in_class Digit) with is_digit. rewrite Es; cbn [fst snd].
    rewrite bt_opt, bt_group, bt_seq.
    change (bt (Cls (Lit ".")) ?P (String "." ?t) ?g ?k) with (k (S P) t g).
    cbv beta.
    erewrite (bt_plus_run Digit).
    + reflexivity.
    + exact Eb.
    + change (in_class Digit) with is_digit. rewrite Ef; cbn [fst snd].
      apply tail_accepts.
  - cbn [span_of Nat.eqb]. f_equal. f_equal.
    cbn [String.length append]. rewrite length_append. cbn [String.length]. lia.
Qed.

(** The numeral at the head of [s] is a prefix of [s]. *)
Lemma numeral_at_prefix (s : string) :
  exists rest, s = Spec.numeral_at s ++ rest.
Proof.
  unfold Spec.numeral_at.
  pose proof (span_while_append is_digit s) as Hs.
  destruct (span_while is_digit s) as [d r]; simpl in Hs.
  assert (Hd : exists rest, s = d ++ rest) by (now exists r).
  destruct r as [|x r']; [exact Hd|].
  destruct (Ascii.eqb x ".") eqn:Ex.
  - apply Ascii.eqb_eq in Ex; subst x.
    pose proof (span_while_append is_digit r') as Hr.
    destruct (span_while is_digit r') as [f r3]; simpl in Hr.
    destruct f as [|b f]; [exact Hd|].
    exists r3. rewrite <- Hs, <- Hr. now rewrite !append_assoc.
  - apply Ascii.eqb_neq in Ex.
    destruct x as [[] [] [] [] [] [] [] []]; try exact Hd.
    now contradiction Ex.
Qed.

(** [re.search] with the analyzers' pattern finds the first numeral, and
    its group 1 is the text of that numeral. *)
Lemma scan_first_numeral (s : string) :
  forall p : string,
    option_map (fun m => group m 1) (scan progress_re (p ++ s) (String.length p) s)
    = option_map Some (Spec.first_numeral s).
Proof.
  induction s as [|a s IH]; intros p.
  - reflexivity.
  - cbn [scan Spec.first_numeral]. destruct (is_digit a) eqn:Ea.
    + destruct (progress_re_digit (String.length p) a s Ea) as [g [Hg H1]].
      rewrite Hg. cbn [option_map]. unfold group; cbn [m_spans m_string].
      rewrite H1. f_equal. f_equal.
      replace (String.length p + String.length (Spec.numeral_at (String a s))
               - String.length p)%nat
        with (String.length (Spec.numeral_at (String a s))) by lia.
      rewrite substring_skip.
      destruct (numeral_at_prefix (String a s)) as [rest Hrest].
      rewrite Hrest at 2. apply substring_prefix.
    + rewrite progress_re_stops by exact Ea.
      specialize (IH (p ++ String a "")).
      rewrite append_assoc, length_append in IH. cbn in IH.
      rewrite Nat.add_1_r in IH. exact IH.
Qed.

Lemma search_first_numeral (s : string) :
  option_map (fun m => group m 1) (search progress_re s)
  = option_map Some (Spec.first_numeral s).
Proof. exact (scan_first_numeral s ""). Qed.

(** The two lines of the analyzers, without the regular expression. *)
Lemma progress_estimate_first_numeral (s : string) :
  progress_estimate s
  = match Spec.first_numeral s with
    | Some t => float t
    | None => Return 0%Q
    end.
Proof.
  unfold progress_estimate. pose proof (search_first_numeral s) as H.
  destruct (search progress_re s) as [m|], (Spec.first_numeral s) as [t|];
    cbn in H; try discriminate.
  - injection H as H. now rewrite H.
  - reflexivity.
Qed.

(* ------------------------------------------------------------------ *)
(** ** Numerals and their value *)

Lemma numeral_at_numeral (a : ascii) (s : string) :
  is_digit a = true -> numeral (Spec.numeral_at (String a s)).
Proof.
  intros Ha. unfold Spec.numeral_at. cbn [span_while]. rewrite Ha.
  pose proof (span_while_all is_digit s) as Hd.
  destruct (span_while is_digit s) as [d r]; cbn [fst] in Hd.
  assert (Hi : numeral (String a d)).
  { apply numeral_int; [discriminate|]. cbn. now rewrite Ha, Hd. }
  destruct r as [|x r']; [exact Hi|].
  destruct (Ascii.eqb x ".") eqn:Ex.
  - apply Ascii.eqb_eq in Ex; subst x.
    pose proof (span_while_all is_digit r') as Hf.
    destruct (span_while is_digit r') as [f r3]; cbn [fst] in Hf.
    destruct f as [|b f]; [exact Hi|].
    apply numeral_frac; try discriminate; [|exact Hf].
    cbn. now rewrite Ha, Hd.
  - apply Ascii.eqb_neq in Ex.
    destruct x as [[] [] [] [] [] [] [] []]; try exact Hi.
    now contradiction Ex.
Qed.

Lemma digits_value_acc (s : string) :
  forall acc : N,
    digits_value acc s
    = (acc * 10 ^ N.of_nat (String.length s) + digits_value 0 s)%N.
Proof.
  induction s as [|c s IH]; intros acc.
  - cbn. lia.
  - cbn [digits_value String.length].
    rewrite (IH (acc * 10 + digit_value c)%N), (IH (0 * 10 + digit_value c)%N).
    rewrite Nat2N.inj_succ, N.pow_succ_r'. lia.
Qed.

Lemma digits_value_append (a b : string) (acc : N) :
  digits_value acc (a ++ b) = digits_value (digits_value acc a) b.
Proof. revert acc; induction a as [|c a IH]; intros acc; cbn; [reflexivity | apply IH]. Qed.

Lemma Q_of_N_nonneg (n : N) : (0 <= Q_of_N n)%Q.
Proof.
  unfold Q_of_N. change 0%Q with (inject_Z 0). rewrite <- Zle_Qle. lia.
Qed.

Lemma Q_of_N_pow10_pos (n : nat) : (0 < Q_of_N (10 ^ N.of_nat n))%Q.
Proof.
  unfold Q_of_N. change 0%Q with (inject_Z 0). rewrite <- Zlt_Qlt.
  assert (10 ^ N.of_nat n <> 0)%N by (apply N.pow_nonzero; discriminate). lia.
Qed.

Lemma float_int (i : string) :
  i <> "" -> all_chars is_digit i = true ->
  float i = Return (Q_of_N (digits_value 0 i)).
Proof.
  intros Hi Di. unfold float. rewrite (span_while_whole is_digit i Di).
  destruct i as [|c i]; [contradiction | reflexivity].
Qed.

Lemma float_frac (i f : string) :
  i <> "" -> all_chars is_digit i = true ->
  f <> "" -> all_chars is_digit f = true ->
  float (i ++ "." ++ f)
  = Return (Q_of_N (digits_value 0 i)
            + Q_of_N (digits_value 0 f) / Q_of_N (10 ^ N.of_nat (String.length f)))%Q.
Proof.
  intros Hi Di Hf Df. unfold float.
  rewrite (span_while_run is_digit i ("." ++ f) Di) by reflexivity.
  destruct i as [|c i]; [contradiction|].
  cbn [append]. rewrite (span_while_whole is_digit f Df).
  destruct f as [|b f]; [contradiction | reflexivity].
Qed.

(** [float] on a numeral: it does not raise, and it returns the value of
    the numeral, which is not negative. *)
Lemma float_numeral (t : string) :
  numeral t ->
  exists q, float t = Return q /\ (q == Spec.numeral_value t)%Q /\ (0 <= q)%Q.
Proof.
  intros [i Hi Di | i f Hi Di Hf Df].
  - rewrite (float_int i Hi Di). eexists; split; [reflexivity|].
    unfold Spec.numeral_value. rewrite (span_while_whole is_digit i Di).
    split; [reflexivity | apply Q_of_N_nonneg].
  - rewrite (float_frac i f Hi Di Hf Df). eexists; split; [reflexivity|].
    unfold Spec.numeral_value.
    rewrite (span_while_run is_digit i ("." ++ f) Di) by reflexivity.
    cbn [append]. split.
    + rewrite digits_value_append.
      rewrite (digits_value_acc f (digits_value 0 i)).
      pose proof (Q_of_N_pow10_pos (String.length f)) as Hp.
      set (P := (10 ^ N.of_nat (String.length f))%N) in *.
      set (I := digits_value 0 i).
      set (F := digits_value 0 f).
      unfold Q_of_N in *. rewrite N2Z.inj_add, N2Z.inj_mul, inject_Z_plus, inject_Z_mult.
      field. intros H0. rewrite H0 in Hp. now apply Qlt_irrefl in Hp.
    + apply (Qle_trans _ (0 + 0)%Q); [discriminate|].
      apply Qplus_le_compat; [apply Q_of_N_nonneg|].
      apply Qmult_le_0_compat; [apply Q_of_N_nonneg|].
      apply Qinv_le_0_compat, Q_of_N_nonneg.
Qed.

Lemma first_numeral_numeral (s t : string) :
  Spec.first_numeral s = Some t -> numeral t.
Proof.
  induction s as [|a s IH]; cbn [Spec.first_numeral]; [discriminate|].
  destruct (is_digit a) eqn:Ea; [|exact IH].
  intros H; injection H as <-. now apply numeral_at_numeral.
Qed.

(** The extraction never raises; its value is the one the specification
    describes, and it is not negative. *)
Lemma progress_estimate_returns (s : string) :
  exists q, progress_estimate s = Return q
            /\ (q == Spec.progress_percent s)%Q /\ (0 <= q)%Q.
Proof.
  rewrite progress_estimate_first_numeral. unfold Spec.progress_percent.
  destruct (Spec.first_numeral s) as [t|] eqn:Et.
  - apply float_numeral. now apply (first_numeral_numeral s).
  - exists 0%Q. split; [reflexivity | split; [reflexivity | apply Qle_refl]].
Qed.

Lemma first_numeral_skip (p s : string) :
  all_chars (fun c => negb (is_digit c)) p = true ->
  Spec.first_numeral (p ++ s) = Spec.first_numeral s.
Proof.
  induction p as [|a p IH]; cbn; [reflexivity|].
  intros H. apply andb_true_iff in H as [Ha Hp].
  apply negb_true_iff in Ha. rewrite Ha. now apply IH.
Qed.

Lemma first_numeral_none (s : string) :
  all_chars (fun c => negb (is_digit c)) s = true -> Spec.first_numeral s = None.
Proof.
  intros H. rewrite <- (append_nil_r s). now rewrite first_numeral_skip.
Qed.

(* ------------------------------------------------------------------ *)
(** ** The analyzers *)

(** One iteration of [analyze_image] returns: the narrative is the reply
    of the model, or the fallback text when the body of the [try] raised;
    the progress is what the extraction makes of the narrative. *)
Lemma agents_analyze_one_returns (w : World) (pd : option dict)
    (im : Metadata.t) (e : Env) :
  exists r, fst (Agents.analyze_one w pd im e) = Return r
    /\ Agents.analysis r
       = match Agents.request w pd (Metadata.image_uri im) e with
         | (Return text, _) => text
         | (Raise _, e') =>
             simulated_text (Metadata.image_uri im) (uniform w (draws e') 50%Q 100%Q)
         end
    /\ progress_estimate (Agents.analysis r) = Return (Agents.progress r).
Proof.
  unfold Agents.analyze_one. run_monad.
  destruct (Agents.request w pd (Metadata.image_uri im) e) as [[text|x] e'].
  - destruct (progress_estimate_returns text) as [q [Hq _]]. rewrite Hq.
    eexists; split; [reflexivity|]. split; [reflexivity | exact Hq].
  - run_monad.
    destruct (progress_estimate_returns
                (simulated_text (Metadata.image_uri im) (uniform w (draws e') 50%Q 100%Q)))
      as [q [Hq _]].
    rewrite Hq. eexists; split; [reflexivity|]. split; [reflexivity | exact Hq].
Qed.

Lemma agents_analyze_loop_returns (w : World) (pd : option dict)
    (imgs : list Metadata.t) :
  forall (acc : list Agents.Analysis) (e : Env),
  exists rs, fst (Agents.analyze_loop w pd imgs acc e) = Return (acc ++ rs)%list
    /\ Forall2 (fun im r => exists e0, fst (Agents.analyze_one w pd im e0) = Return r)
         imgs rs.
Proof.
  induction imgs as [|im imgs IH]; intros acc e; cbn [Agents.analyze_loop].
  - exists []. rewrite app_nil_r. split; [reflexivity | constructor].
  - unfold bind.
    destruct (agents_analyze_one_returns w pd im e) as [r [Hr _]].
    destruct (Agents.analyze_one w pd im e) as [res e1] eqn:E1.
    cbn [fst] in Hr. subst res.
    destruct (IH (acc ++ [r])%list e1) as [rs [Hrs HF]].
    exists (r :: rs). rewrite Hrs, <- app_assoc. split; [reflexivity|].
    constructor; [|exact HF]. exists e. now rewrite E1.
Qed.

(** [analyze_image] returns, with one result per image, in order. *)
Lemma agents_analyze_image_returns {ToolContext : Type} (tc : ToolContext)
    (w : World) (pd : option dict) (imgs : list Metadata.t) (e : Env) :
  exists rs, fst (Agents.analyze_image tc w pd imgs e) = Return rs
    /\ Forall2 (fun im r => exists e0, fst (Agents.analyze_one w pd im e0) = Return r)
         imgs rs.
Proof. exact (agents_analyze_loop_returns w pd imgs [] e). Qed.

(** The same three facts for [analyze_images]. *)
Lemma pm_analyze_one_returns (w : World) (im : Metadata.t) (e : Env) :
  exists r, fst (ProjectManagement.analyze_one w im e) = Return r
    /\ ProjectManagement.description r
       = match stream_response w "gemini-2.0-flash-001" (Metadata.image_uri im)
                 ProjectManagement.prompt_text e with
         | (Return text, _) => text
         | (Raise _, e') =>
             simulated_text (Metadata.image_uri im) (uniform w (draws e') 50%Q 100%Q)
         end
    /\ progress_estimate (ProjectManagement.description r)
       = Return (ProjectManagement.progress r).
Proof.
  unfold ProjectManagement.analyze_one. run_monad.
  destruct (stream_response w "gemini-2.0-flash-001" (Metadata.image_uri im)
              ProjectManagement.prompt_text e) as [[text|x] e'].
  - destruct (progress_estimate_returns text) as [q [Hq _]]. rewrite Hq.
    eexists; split; [reflexivity|]. split; [reflexivity | exact Hq].
  - run_monad.
    destruct (progress_estimate_returns
                (simulated_text (Metadata.image_uri im) (uniform w (draws e') 50%Q 100%Q)))
      as [q [Hq _]].
    rewrite Hq. eexists; split; [reflexivity|]. split; [reflexivity | exact Hq].
Qed.

Lemma pm_analyze_loop_returns (w : World) (imgs : list Metadata.t) :
  forall (acc : list ProjectManagement.Analysis) (e : Env),
  exists rs, fst (ProjectManagement.analyze_loop w imgs acc e) = Return (acc ++ rs)%list
    /\ Forall2 (fun im r =>
                  exists e0, fst (ProjectManagement.analyze_one w im e0) = Return r)
         imgs rs.
Proof.
  induction imgs as [|im imgs IH]; intros acc e; cbn [ProjectManagement.analyze_loop].
  - exists []. rewrite app_nil_r. split; [reflexivity | constructor].
  - unfold bind.
    destruct (pm_analyze_one_returns w im e) as [r [Hr _]].
    destruct (ProjectManagement.analyze_one w im e) as [res e1] eqn:E1.
    cbn [fst] in Hr. subst res.
    destruct (IH (acc ++ [r])%list e1) as [rs [Hrs HF]].
    exists (r :: rs). rewrite Hrs, <- app_assoc. split; [reflexivity|].
    constructor; [|exact HF]. exists e. now rewrite E1.
Qed.

Lemma pm_analyze_images_returns (w : World) (imgs : list Metadata.t) (e : Env) :
  exists rs, fst (ProjectManagement.analyze_images w imgs e) = Return rs
    /\ Forall2 (fun im r =>
                  exists e0, fst (ProjectManagement.analyze_one w im e0) = Return r)
         imgs rs.
Proof. exact (pm_analyze_loop_returns w imgs [] e). Qed.

(* ------------------------------------------------------------------ *)
(** ** The consolidator *)

Lemma rebuild_analysis (a : Agents.Analysis) :
  Agents.mkAnalysis (Agents.analysis a) (Agents.progress a) = a.
Proof. now destruct a. Qed.

(** The loop appends the entries to the timeline in the order it meets
    them and adds their progress to the total. *)
Lemma consolidate_loop_spec (l : list Agents.Analysis) :
  forall (tl : list Agents.Analysis) (tot : Q),
    fst (Agents.consolidate_loop l tl tot) = (tl ++ l)%list
    /\ (snd (Agents.consolidate_loop l tl tot)
        == tot + Spec.sum (map Agents.progress l))%Q.
Proof.
  induction l as [|a l IH]; intros tl tot; cbn [Agents.consolidate_loop].
  - cbn [fst snd map]. rewrite app_nil_r. split; [reflexivity|].
    unfold Spec.sum. cbn [fold_right]. ring.
  - destruct (IH (tl ++ [Agents.mkAnalysis (Agents.analysis a) (Agents.progress a)])%list
                 (tot + Agents.progress a)%Q) as [H1 H2].
    split.
    + rewrite H1, rebuild_analysis, <- app_assoc. reflexivity.
    + rewrite H2. unfold Spec.sum. cbn [map fold_right]. ring.
Qed.

(** What [consolidate_analysis] returns, whatever the tool context and
    the environment it runs in. *)
Lemma consolidate_analysis_returns {ToolContext : Type} (tc : ToolContext)
    (l : list Agents.Analysis) (e : Env) :
  fst (Agents.consolidate_analysis tc l e)
  = Return (Agents.mkReport l
              (if (0 <? List.length l)%nat
               then (snd (Agents.consolidate_loop l [] 0%Q)
                     / inject_Z (Z.of_nat (List.length l)))%Q
               else 0%Q)
              "2024-06-01").
Proof.
  unfold Agents.consolidate_analysis. run_monad.
  pose proof (proj1 (consolidate_loop_spec l [] 0%Q)) as H1.
  destruct (Agents.consolidate_loop l [] 0%Q) as [tl tot]. cbn in H1. subst tl.
  reflexivity.
Qed.

(* ------------------------------------------------------------------ *)
(** ** Printing a number and reading it back *)

Lemma string_of_uint_digits (u : Decimal.uint) :
  all_chars is_digit (DecimalString.NilEmpty.string_of_uint u) = true.
Proof. induction u; cbn [DecimalString.NilEmpty.string_of_uint all_chars]; auto. Qed.

Lemma digits_value_of_uint_acc (u : Decimal.uint) :
  forall acc : positive,
    digits_value (N.pos acc) (DecimalString.NilEmpty.string_of_uint u)
    = N.pos (Pos.of_uint_acc u acc).
Proof.
  induction u; intros acc;
    cbn [DecimalString.NilEmpty.string_of_uint digits_value Pos.of_uint_acc];
    [reflexivity
    | rewrite <- IHu; f_equal;
      match goal with
      | |- context [digit_value ?c] =>
          let v := eval vm_compute in (digit_value c) in
          change (digit_value c) with v
      end; lia ..].
Qed.

Lemma digits_value_of_uint (u : Decimal.uint) :
  digits_value 0 (DecimalString.NilEmpty.string_of_uint u) = N.of_uint u.
Proof.
  unfold N.of_uint.
  induction u;
    cbn [DecimalString.NilEmpty.string_of_uint digits_value Pos.of_uint];
    [reflexivity | exact IHu | apply digits_value_of_uint_acc ..].
Qed.

Lemma decimal_digits (n : Z) : all_chars is_digit (decimal n) = true.
Proof. apply string_of_uint_digits. Qed.

Lemma decimal_value (n : Z) : digits_value 0 (decimal n) = Z.to_N n.
Proof.
  unfold decimal. rewrite digits_value_of_uint. apply DecimalN.Unsigned.of_to.
Qed.

Lemma decimal_nonempty (n : Z) : decimal n <> "".
Proof.
  unfold decimal. destruct (Z.to_N n) as [|p]; [discriminate|].
  cbn [N.to_uint]. pose proof (DecimalPos.Unsigned.to_uint_nonnil p) as H.
  destruct (Pos.to_uint p); cbn; try discriminate. now contradiction H.
Qed.

Lemma decimal_one_digit (n : Z) :
  (0 <= n < 10)%Z -> String.length (decimal n) = 1%nat.
Proof.
  intros [Hlo Hhi]. destruct n as [|p|p]; [reflexivity | | lia].
  do 4 (try destruct p as [p|p|]); try reflexivity; lia.
Qed.

Lemma round_half_even_lower (x : Q) (k : Z) :
  (inject_Z k <= x)%Q -> (k <= round_half_even x)%Z.
Proof.
  unfold Qle, round_half_even; cbn [Qnum Qden inject_Z]. intros H.
  pose proof (Z.div_mod (Qnum x) (Zpos (Qden x)) ltac:(discriminate)) as Hdm.
  pose proof (Z.mod_pos_bound (Qnum x) (Zpos (Qden x)) ltac:(reflexivity)) as Hr.
  destruct (2 * (Qnum x mod Zpos (Qden x)) ?= Zpos (Qden x))%Z;
    [destruct (Z.even _)| |]; nia.
Qed.

Lemma round_half_even_upper (x : Q) (k : Z) :
  (x <= inject_Z k)%Q -> (round_half_even x <= k)%Z.
Proof.
  unfold Qle, round_half_even; cbn [Qnum Qden inject_Z]. intros H.
  pose proof (Z.div_mod (Qnum x) (Zpos (Qden x)) ltac:(discriminate)) as Hdm.
  pose proof (Z.mod_pos_bound (Qnum x) (Zpos (Qden x)) ltac:(reflexivity)) as Hr.
  destruct (Z.compare_spec (2 * (Qnum x mod Zpos (Qden x))) (Zpos (Qden x)));
    [destruct (Z.even _)| |]; nia.
Qed.

(** The tenths that [f"{x:.1f}"] prints. *)
Lemma tenths_in_range (x : Q) :
  (50 <= x <= 100)%Q -> (500 <= round_half_even (x * 10) <= 1000)%Z.
Proof.
  intros [Hlo Hhi]. split.
  - apply round_half_even_lower. change (inject_Z 500) with 500%Q. lra.
  - apply round_half_even_upper. change (inject_Z 1000) with 1000%Q. lra.
Qed.

Lemma format_1f_in_range (x : Q) :
  (50 <= x <= 100)%Q ->
  format_1f x
  = decimal (round_half_even (x * 10) / 10) ++ "."
    ++ decimal (round_half_even (x * 10) mod 10).
Proof.
  intros Hx. pose proof (tenths_in_range x Hx) as Ht. unfold format_1f.
  assert (H0 : Qle_bool 0 x = true) by (apply Qle_bool_iff; lra).
  rewrite H0, Z.abs_eq by lia. reflexivity.
Qed.

(** Reading back what [f"{x:.1f}"] printed gives the tenths over ten. *)
Lemma float_format_1f (x : Q) :
  (50 <= x <= 100)%Q ->
  exists q, float (format_1f x) = Return q
            /\ (q == inject_Z (round_half_even (x * 10)) / 10)%Q
            /\ (50 <= q <= 100)%Q.
Proof.
  intros Hx. pose proof (tenths_in_range x Hx) as Ht.
  rewrite (format_1f_in_range x Hx).
  set (t := round_half_even (x * 10)) in *.
  rewrite float_frac by (try apply decimal_nonempty; apply decimal_digits).
  eexists; split; [reflexivity|].
  rewrite !decimal_value, decimal_one_digit by (apply Z.mod_pos_bound; lia).
  assert (Hq : (Q_of_N (Z.to_N (t / 10))
                + Q_of_N (Z.to_N (t mod 10)) / Q_of_N (10 ^ N.of_nat 1)
                == inject_Z t / 10)%Q).
  { unfold Q_of_N. rewrite !Z2N.id by (try apply Z.div_pos; try apply Z.mod_pos_bound; lia).
    change (inject_Z (Z.of_N (10 ^ N.of_nat 1))) with 10%Q.
    rewrite (Z.div_mod t 10) at 3 by lia.
    rewrite inject_Z_plus, inject_Z_mult. change (inject_Z 10) with 10%Q. field. }
  split; [exact Hq|]. rewrite Hq.
  unfold Qle, Qdiv, Qmult, Qinv; cbn [Qnum Qden inject_Z]. lia.
Qed.

Lemma numeral_at_frac_run (i f rest : string) :
  all_chars is_digit i = true -> all_chars is_digit f = true -> f <> "" ->
  stops is_digit rest ->
  Spec.numeral_at (i ++ "." ++ f ++ rest) = i ++ "." ++ f.
Proof.
  intros Di Df Hf Hrest. unfold Spec.numeral_at.
  rewrite (span_while_run is_digit i ("." ++ f ++ rest) Di) by reflexivity.
  cbn [append]. rewrite (span_while_run is_digit f rest Df Hrest).
  destruct f; [contradiction | reflexivity].
Qed.

Lemma first_numeral_digit_head (i s : string) :
  i <> "" -> all_chars is_digit i = true ->
  Spec.first_numeral (i ++ s) = Some (Spec.numeral_at (i ++ s)).
Proof.
  intros Hi Di. destruct i as [|a i]; [contradiction|].
  cbn [all_chars] in Di. apply andb_true_iff in Di as [Da _].
  cbn [append Spec.first_numeral]. now rewrite Da.
Qed.

(** On the fallback narrative of an image whose locator holds no digit,
    the extraction reads the percentage that was printed into it. *)
Lemma progress_estimate_simulated (image_uri : string) (x : Q) :
  no_digit image_uri = true -> (50 <= x <= 100)%Q ->
  progress_estimate (simulated_text image_uri x) = float (format_1f x).
Proof.
  intros Huri Hx. rewrite progress_estimate_first_numeral. unfold simulated_text.
  rewrite (first_numeral_skip "Simulated analysis for image ") by reflexivity.
  rewrite (first_numeral_skip image_uri) by exact Huri.
  rewrite (first_numeral_skip ". The site appears to be at approximately ") by reflexivity.
  rewrite (format_1f_in_range x Hx).
  set (t := round_half_even (x * 10)).
  rewrite !append_assoc.
  rewrite first_numeral_digit_head by (try apply decimal_nonempty; apply decimal_digits).
  rewrite numeral_at_frac_run;
    [reflexivity | apply decimal_digits | apply decimal_digits
    | apply decimal_nonempty | reflexivity].
Qed.

Lemma w_down_in_range : uniform_in_range w_down.
Proof.
  intros k a b Hab. unfold w_down; cbn [uniform]. unfold Qdiv.
  setoid_replace (/ 2)%Q with (1 # 2)%Q by reflexivity. split; lra.
Qed.

(* ------------------------------------------------------------------ *)
(** ** The model on concrete inputs *)

Example search_groups :
  option_map (fun m => (group m 1, group m 2))
    (search progress_re "approximately 73.5% progress")
  = Some (Some "73.5", Some ".5").
Proof. reflexivity. Qed.

Example search_point_without_fraction :
  option_map (fun m => (group m 1, group m 2)) (search progress_re "done 3. next 4.5")
  = Some (Some "3", None).
Proof. reflexivity. Qed.

Example search_without_digit : search progress_re "no numeric info here" = None.
Proof. reflexivity. Qed.

Example format_1f_ties :
  format_1f 73.25%Q = "73.2" /\ format_1f 99.96%Q = "100.0" /\ format_1f 50%Q = "50.0".
Proof. repeat split. Qed.

Example consolidate_two :
  fst (Agents.consolidate_analysis tt
         [Agents.mkAnalysis "a" 50%Q; Agents.mkAnalysis "b" 75%Q] env0)
  = Return (Agents.mkReport
              [Agents.mkAnalysis "a" 50%Q; Agents.mkAnalysis "b" 75%Q]
              (125 # 2)%Q "2024-06-01").
Proof. reflexivity. Qed.

(** [project_details] is unbound in [agents.py]: every iteration of
    [analyze_image] takes the fallback, without sending a request. *)
Example agents_unbound_project_details :
  exists rs e,
    Agents.analyze_image tt w_over None [plain_image] env0 = (Return rs, e)
    /\ map Agents.analysis rs = [simulated_text "gs://bucket/site.png" 75%Q]
    /\ requests e = 0%nat /\ draws e = 1%nat.
Proof. do 2 eexists. split; [vm_compute; reflexivity|]. repeat split. Qed.

(** On its own sample list, [analyze_image] reads the 1 of the file
    names. *)
Example agents_sample_progress :
  exists rs,
    fst (Agents.analyze_image tt w_down None Agents.SAMPLE_IMAGE_METADATA env0)
    = Return rs
    /\ map Agents.progress rs = [1%Q; 1%Q; 1%Q].
Proof. eexists. split; [vm_compute; reflexivity | reflexivity]. Qed.

(* ------------------------------------------------------------------ *)
(** ** The claims *)

(** C1. The [overall_progress] of the consolidated report is [0.0] for
    the empty list and the arithmetic mean [sum(p_i)/n] of the progress
    values of a list that is not empty. *)
Theorem overall_progress_is_mean :
  (forall (T : Type) (tc : T) (e : Env),
      exists r, fst (Agents.consolidate_analysis tc [] e) = Return r
                /\ Agents.overall_progress r = 0%Q)
  /\ (forall (T : Type) (tc : T) (e : Env) (a : Agents.Analysis)
             (l : list Agents.Analysis),
         exists r, fst (Agents.consolidate_analysis tc (a :: l) e) = Return r
                   /\ (Agents.overall_progress r
                       == Spec.mean (map Agents.progress (a :: l)))%Q).
Proof.
  split.
  - intros T tc e. rewrite consolidate_analysis_returns.
    eexists; split; reflexivity.
  - intros T tc e a l. rewrite consolidate_analysis_returns.
    eexists; split; [reflexivity|].
    cbn [Agents.overall_progress List.length Nat.ltb Nat.leb].
    rewrite (proj2 (consolidate_loop_spec (a :: l) [] 0%Q)).
    unfold Spec.mean. rewrite Qplus_0_l, length_map. reflexivity.
Qed.

(** C7. The timeline of the consolidated report is the input sequence:
    same length, same entries at the same indices. *)
Theorem timeline_preserves_order :
  forall (T : Type) (tc : T) (l : list Agents.Analysis) (e : Env),
    exists r, fst (Agents.consolidate_analysis tc l e) = Return r
              /\ Agents.timeline r = l
              /\ List.length (Agents.timeline r) = List.length l
              /\ forall i, nth_error (Agents.timeline r) i = nth_error l i.
Proof.
  intros T tc l e. rewrite consolidate_analysis_returns.
  eexists; split; [reflexivity|]. cbn [Agents.timeline]. auto.
Qed.

(** C8. [estimated_completion] is the constant "2024-06-01": the reports
    of any two inputs carry the same value. *)
Theorem estimated_completion_is_constant :
  forall (T1 T2 : Type) (tc1 : T1) (tc2 : T2) (l1 l2 : list Agents.Analysis)
         (e1 e2 : Env),
    exists r1 r2,
      fst (Agents.consolidate_analysis tc1 l1 e1) = Return r1
      /\ fst (Agents.consolidate_analysis tc2 l2 e2) = Return r2
      /\ Agents.estimated_completion r1 = "2024-06-01"
      /\ Agents.estimated_completion r2 = Agents.estimated_completion r1.
Proof.
  intros. rewrite !consolidate_analysis_returns.
  do 2 eexists. repeat split.
Qed.

(** C9. Two calls of the consolidator on the same sequence return the
    same report, whatever was printed or drawn before each call; so do
    two calls made one after the other. *)
Theorem consolidate_analysis_deterministic :
  forall (T : Type) (tc : T) (l : list Agents.Analysis) (e e' : Env),
    exists r,
      fst (Agents.consolidate_analysis tc l e) = Return r
      /\ fst (Agents.consolidate_analysis tc l e') = Return r
      /\ fst ((r1 <- Agents.consolidate_analysis tc l ;;
               r2 <- Agents.consolidate_analysis tc l ;;
               ret (r1, r2))%py e) = Return (r, r).
Proof.
  intros T tc l e e'. eexists. split; [apply consolidate_analysis_returns|].
  split; [apply consolidate_analysis_returns|].
  unfold bind at 1.
  pose proof (consolidate_analysis_returns tc l e) as H1.
  destruct (Agents.consolidate_analysis tc l e) as [res1 e1]. cbn [fst] in H1. subst res1.
  unfold bind.
  pose proof (consolidate_analysis_returns tc l e1) as H2.
  destruct (Agents.consolidate_analysis tc l e1) as [res2 e2]. cbn [fst] in H2. subst res2.
  reflexivity.
Qed.

(** C2. On every narrative the extraction returns the number of the
    first run of digits with its optional decimal fraction ([0.0] when
    there is none); on "approximately 73.5% progress" it returns 73.5. *)
Theorem extraction_reads_first_numeral :
  (forall narrative : string,
      exists q, progress_estimate narrative = Return q
                /\ (q == Spec.progress_percent narrative)%Q)
  /\ Spec.first_numeral "approximately 73.5% progress" = Some "73.5"
  /\ progress_estimate "approximately 73.5% progress" = Return 73.5%Q.
Proof.
  split; [|split; reflexivity].
  intros narrative.
  destruct (progress_estimate_returns narrative) as [q [Hq [Hv _]]].
  now exists q.
Qed.

(** C6. A narrative without any digit gives the progress value [0.0],
    as a normal return. *)
Theorem no_digit_gives_zero :
  forall narrative : string,
    no_digit narrative = true -> progress_estimate narrative = Return 0%Q.
Proof.
  intros narrative H. rewrite progress_estimate_first_numeral.
  now rewrite (first_numeral_none narrative H).
Qed.

Lemma no_digit_gives_zero_witness :
  no_digit "no numeric info here" = true
  /\ progress_estimate "no numeric info here" = Return 0%Q.
Proof.
  split; [reflexivity|].
  apply (no_digit_gives_zero "no numeric info here"). reflexivity.
Defined.

(** C10. The extracted progress value is never negative: a minus sign in
    front of the digits is not part of the match, and "-5% progress"
    gives 5.0. *)
Theorem extraction_is_nonnegative :
  (forall narrative : string,
      exists q, progress_estimate narrative = Return q /\ (0 <= q)%Q)
  /\ progress_estimate "-5% progress" = Return 5%Q.
Proof.
  split; [|reflexivity].
  intros narrative.
  destruct (progress_estimate_returns narrative) as [q [Hq [_ H0]]].
  now exists q.
Qed.

(** The progress of every result of an iteration is not negative. *)
Lemma agents_progress_nonneg (w : World) (pd : option dict)
    (imgs : list Metadata.t) (rs : list Agents.Analysis) :
  Forall2 (fun im r => exists e0, fst (Agents.analyze_one w pd im e0) = Return r) imgs rs ->
  Forall (fun r => (0 <= Agents.progress r)%Q) rs.
Proof.
  induction 1 as [|im r imgs rs [e0 He0] _ IH]; constructor; [|exact IH].
  destruct (agents_analyze_one_returns w pd im e0) as [r' [Hr' [_ Hp]]].
  rewrite He0 in Hr'. injection Hr' as <-.
  destruct (progress_estimate_returns (Agents.analysis r)) as [q [Hq [_ H0]]].
  rewrite Hq in Hp. now injection Hp as <-.
Qed.

Lemma pm_progress_nonneg (w : World)
    (imgs : list Metadata.t) (rs : list ProjectManagement.Analysis) :
  Forall2 (fun im r => exists e0, fst (ProjectManagement.analyze_one w im e0) = Return r)
    imgs rs ->
  Forall (fun r => (0 <= ProjectManagement.progress r)%Q) rs.
Proof.
  induction 1 as [|im r imgs rs [e0 He0] _ IH]; constructor; [|exact IH].
  destruct (pm_analyze_one_returns w im e0) as [r' [Hr' [_ Hp]]].
  rewrite He0 in Hr'. injection Hr' as <-.
  destruct (progress_estimate_returns (ProjectManagement.description r)) as [q [Hq [_ H0]]].
  rewrite Hq in Hp. now injection Hp as <-.
Qed.

(** C4, as the code has it.  The progress of every result of both
    analyzers is at least [0]; nothing bounds it by [100]. *)
Theorem analysis_progress_nonnegative :
  (forall (T : Type) (tc : T) (w : World) (pd : option dict)
          (imgs : list Metadata.t) (e : Env),
      exists rs, fst (Agents.analyze_image tc w pd imgs e) = Return rs
                 /\ Forall (fun r => (0 <= Agents.progress r)%Q) rs)
  /\ (forall (w : World) (imgs : list Metadata.t) (e : Env),
         exists rs, fst (ProjectManagement.analyze_images w imgs e) = Return rs
                    /\ Forall (fun r => (0 <= ProjectManagement.progress r)%Q) rs).
Proof.
  split.
  - intros T tc w pd imgs e.
    destruct (agents_analyze_image_returns tc w pd imgs e) as [rs [Hrs HF]].
    exists rs. split; [exact Hrs | now apply (agents_progress_nonneg w pd imgs)].
  - intros w imgs e.
    destruct (pm_analyze_images_returns w imgs e) as [rs [Hrs HF]].
    exists rs. split; [exact Hrs | now apply (pm_progress_nonneg w imgs)].
Qed.

(** C4 as stated fails: a reply that speaks of 150% gives a result whose
    progress is 150. *)
Lemma analysis_progress_above_100 :
  exists r,
    fst (ProjectManagement.analyze_images w_over [plain_image] env0) = Return [r]
    /\ ProjectManagement.description r = "Work stands at 150% of the planned volume."
    /\ ProjectManagement.progress r = 150%Q
    /\ ~ (0 <= ProjectManagement.progress r <= 100)%Q.
Proof.
  eexists. split; [vm_compute; reflexivity|]. split; [reflexivity|].
  split; [reflexivity|].
  cbn [ProjectManagement.progress]. intros [_ H]. vm_compute in H. now apply H.
Qed.

(** The accumulator of the loop is a prefix of what the loop returns. *)
Lemma agents_analyze_loop_acc (w : World) (pd : option dict) (imgs : list Metadata.t) :
  forall (acc : list Agents.Analysis) (e : Env),
    Agents.analyze_loop w pd imgs acc e
    = match Agents.analyze_loop w pd imgs [] e with
      | (Return rs, e') => (Return (acc ++ rs)%list, e')
      | (Raise x, e') => (Raise x, e')
      end.
Proof.
  induction imgs as [|im imgs IH]; intros acc e; cbn [Agents.analyze_loop].
  - unfold ret. now rewrite app_nil_r.
  - unfold bind.
    destruct (Agents.analyze_one w pd im e) as [[r|x] e1]; [|reflexivity].
    rewrite (IH (acc ++ [r])%list e1), (IH ([] ++ [r])%list e1).
    destruct (Agents.analyze_loop w pd imgs [] e1) as [[rs|x] e2]; [|reflexivity].
    now rewrite <- app_assoc.
Qed.

Lemma pm_analyze_loop_acc (w : World) (imgs : list Metadata.t) :
  forall (acc : list ProjectManagement.Analysis) (e : Env),
    ProjectManagement.analyze_loop w imgs acc e
    = match ProjectManagement.analyze_loop w imgs [] e with
      | (Return rs, e') => (Return (acc ++ rs)%list, e')
      | (Raise x, e') => (Raise x, e')
      end.
Proof.
  induction imgs as [|im imgs IH]; intros acc e; cbn [ProjectManagement.analyze_loop].
  - unfold ret. now rewrite app_nil_r.
  - unfold bind.
    destruct (ProjectManagement.analyze_one w im e) as [[r|x] e1]; [|reflexivity].
    rewrite (IH (acc ++ [r])%list e1), (IH ([] ++ [r])%list e1).
    destruct (ProjectManagement.analyze_loop w imgs [] e1) as [[rs|x] e2]; [|reflexivity].
    now rewrite <- app_assoc.
Qed.

(** The run on a list that is not empty: the iteration on the first
    image, then the run on the rest in the environment it left. *)
Lemma agents_analyze_image_cons {T : Type} (tc : T) (w : World) (pd : option dict)
    (im : Metadata.t) (imgs : list Metadata.t) (e : Env) :
  exists r e1 rs e2,
    Agents.analyze_one w pd im e = (Return r, e1)
    /\ Agents.analyze_image tc w pd imgs e1 = (Return rs, e2)
    /\ Agents.analyze_image tc w pd (im :: imgs) e = (Return (r :: rs), e2).
Proof.
  destruct (agents_analyze_one_returns w pd im e) as [r [Hr _]].
  destruct (Agents.analyze_one w pd im e) as [res e1] eqn:E1. cbn [fst] in Hr. subst res.
  destruct (agents_analyze_image_returns tc w pd imgs e1) as [rs [Hrs _]].
  destruct (Agents.analyze_image tc w pd imgs e1) as [res e2] eqn:E2.
  cbn [fst] in Hrs. subst res.
  exists r, e1, rs, e2.
  split; [first [exact E1 | reflexivity]|]. split; [first [exact E2 | reflexivity]|].
  unfold Agents.analyze_image in *. cbn [Agents.analyze_loop]. unfold bind.
  rewrite E1. cbn [app]. rewrite (agents_analyze_loop_acc w pd imgs [r] e1), E2.
  reflexivity.
Qed.

Lemma pm_analyze_images_cons (w : World) (im : Metadata.t) (imgs : list Metadata.t)
    (e : Env) :
  exists r e1 rs e2,
    ProjectManagement.analyze_one w im e = (Return r, e1)
    /\ ProjectManagement.analyze_images w imgs e1 = (Return rs, e2)
    /\ ProjectManagement.analyze_images w (im :: imgs) e = (Return (r :: rs), e2).
Proof.
  destruct (pm_analyze_one_returns w im e) as [r [Hr _]].
  destruct (ProjectManagement.analyze_one w im e) as [res e1] eqn:E1.
  cbn [fst] in Hr. subst res.
  destruct (pm_analyze_images_returns w imgs e1) as [rs [Hrs _]].
  destruct (ProjectManagement.analyze_images w imgs e1) as [res e2] eqn:E2.
  cbn [fst] in Hrs. subst res.
  exists r, e1, rs, e2.
  split; [first [exact E1 | reflexivity]|]. split; [first [exact E2 | reflexivity]|].
  unfold ProjectManagement.analyze_images in *.
  cbn [ProjectManagement.analyze_loop]. unfold bind.
  rewrite E1. cbn [app]. rewrite (pm_analyze_loop_acc w imgs [r] e1), E2.
  reflexivity.
Qed.

(** C5. Whatever the hosted model does, both analyzers return a list
    with one result per image, in order: the result at an index is what
    the iteration on the image at that index returned, its narrative is
    the reply of the model or, when the request raised, the fallback text,
    and its progress is extracted from that narrative.  The run on a list
    is the iteration on its first image followed by the run on the rest;
    the run on the empty list returns the empty list. *)
Theorem analyzers_never_raise :
  (forall (T : Type) (tc : T) (w : World) (pd : option dict)
          (imgs : list Metadata.t) (e : Env),
      exists rs, fst (Agents.analyze_image tc w pd imgs e) = Return rs
                 /\ List.length rs = List.length imgs
                 /\ Forall2
                      (fun im r =>
                         exists e0,
                           fst (Agents.analyze_one w pd im e0) = Return r
                           /\ Agents.analysis r
                              = match Agents.request w pd (Metadata.image_uri im) e0 with
                                | (Return text, _) => text
                                | (Raise _, e') =>
                                    simulated_text (Metadata.image_uri im)
                                      (uniform w (draws e') 50%Q 100%Q)
                                end
                           /\ progress_estimate (Agents.analysis r)
                              = Return (Agents.progress r))
                      imgs rs)
  /\ (forall (w : World) (imgs : list Metadata.t) (e : Env),
         exists rs, fst (ProjectManagement.analyze_images w imgs e) = Return rs
                    /\ List.length rs = List.length imgs
                    /\ Forall2
                         (fun im r =>
                            exists e0,
                              fst (ProjectManagement.analyze_one w im e0) = Return r
                              /\ ProjectManagement.description r
                                 = match stream_response w "gemini-2.0-flash-001"
                                           (Metadata.image_uri im)
                                           ProjectManagement.prompt_text e0 with
                                   | (Return text, _) => text
                                   | (Raise _, e') =>
                                       simulated_text (Metadata.image_uri im)
                                         (uniform w (draws e') 50%Q 100%Q)
                                   end
                              /\ progress_estimate (ProjectManagement.description r)
                                 = Return (ProjectManagement.progress r))
                         imgs rs)
  /\ (forall (w : World) (pd : option dict) (im : Metadata.t) (e : Env),
         exists r, fst (Agents.analyze_one w pd im e) = Return r
           /\ Agents.analysis r
              = match Agents.request w pd (Metadata.image_uri im) e with
                | (Return text, _) => text
                | (Raise _, e') =>
                    simulated_text (Metadata.image_uri im)
                      (uniform w (draws e') 50%Q 100%Q)
                end)
  /\ (forall (w : World) (im : Metadata.t) (e : Env),
         exists r, fst (ProjectManagement.analyze_one w im e) = Return r
           /\ ProjectManagement.description r
              = match stream_response w "gemini-2.0-flash-001"
                        (Metadata.image_uri im) ProjectManagement.prompt_text e with
                | (Return text, _) => text
                | (Raise _, e') =>
                    simulated_text (Metadata.image_uri im)
                      (uniform w (draws e') 50%Q 100%Q)
                end)
  /\ (forall (T : Type) (tc : T) (w : World) (pd : option dict) (e : Env),
         Agents.analyze_image tc w pd [] e = (Return [], e))
  /\ (forall (T : Type) (tc : T) (w : World) (pd : option dict)
             (im : Metadata.t) (imgs : list Metadata.t) (e : Env),
         exists r e1 rs e2,
           Agents.analyze_one w pd im e = (Return r, e1)
           /\ Agents.analyze_image tc w pd imgs e1 = (Return rs, e2)
           /\ Agents.analyze_image tc w pd (im :: imgs) e = (Return (r :: rs), e2))
  /\ (forall (w : World) (e : Env),
         ProjectManagement.analyze_images w [] e = (Return [], e))
  /\ (forall (w : World) (im : Metadata.t) (imgs : list Metadata.t) (e : Env),
         exists r e1 rs e2,
           ProjectManagement.analyze_one w im e = (Return r, e1)
           /\ ProjectManagement.analyze_images w imgs e1 = (Return rs, e2)
           /\ ProjectManagement.analyze_images w (im :: imgs) e
              = (Return (r :: rs), e2)).
Proof.
  split; [|split; [|split; [|split; [|split; [|split; [|split]]]]]].
  - intros T tc w pd imgs e.
    destruct (agents_analyze_image_returns tc w pd imgs e) as [rs [Hrs HF]].
    exists rs. split; [exact Hrs|]. split; [symmetry; exact (Forall2_length HF)|].
    revert HF. apply Forall2_impl. intros im r [e0 He0]. exists e0.
    destruct (agents_analyze_one_returns w pd im e0) as [r' [Hr' [Ha Hp]]].
    rewrite He0 in Hr'. injection Hr' as <-. auto.
  - intros w imgs e.
    destruct (pm_analyze_images_returns w imgs e) as [rs [Hrs HF]].
    exists rs. split; [exact Hrs|]. split; [symmetry; exact (Forall2_length HF)|].
    revert HF. apply Forall2_impl. intros im r [e0 He0]. exists e0.
    destruct (pm_analyze_one_returns w im e0) as [r' [Hr' [Ha Hp]]].
    rewrite He0 in Hr'. injection Hr' as <-. auto.
  - intros w pd im e.
    destruct (agents_analyze_one_returns w pd im e) as [r [Hr [Ha _]]].
    now exists r.
  - intros w im e.
    destruct (pm_analyze_one_returns w im e) as [r [Hr [Ha _]]].
    now exists r.
  - reflexivity.
  - intros T tc w pd im imgs e. apply agents_analyze_image_cons.
  - reflexivity.
  - intros w im imgs e. apply pm_analyze_images_cons.
Qed.

(** What the extraction makes of a fallback narrative whose locator
    holds no digit. *)
Lemma simulated_progress (w : World) (k : nat) (image_uri : string) :
  uniform_in_range w -> no_digit image_uri = true ->
  exists q,
    float (format_1f (uniform w k 50%Q 100%Q)) = Return q
    /\ progress_estimate (simulated_text image_uri (uniform w k 50%Q 100%Q)) = Return q
    /\ (50 <= q <= 100)%Q.
Proof.
  intros Hw Huri.
  assert (Hx : (50 <= uniform w k 50 100 <= 100)%Q) by (apply Hw; discriminate).
  destruct (float_format_1f _ Hx) as [q [Hq [_ Hr]]].
  exists q. split; [exact Hq|]. split; [|exact Hr].
  now rewrite progress_estimate_simulated.
Qed.

(** C3, as the code has it.  The results carry no flag that tells a
    fallback from an answer of the model.  When the request of an image
    raised, the narrative is the fallback text; if moreover the locator of
    the image holds no digit, the progress is the percentage printed in
    that text, between 50 and 100. *)
Theorem simulated_progress_without_uri_digits :
  forall (w : World) (im : Metadata.t),
    uniform_in_range w ->
    no_digit (Metadata.image_uri im) = true ->
    (forall (pd : option dict) (e e' : Env) (x : exn),
        Agents.request w pd (Metadata.image_uri im) e = (Raise x, e') ->
        exists r q,
          fst (Agents.analyze_one w pd im e) = Return r
          /\ Agents.analysis r
             = simulated_text (Metadata.image_uri im) (uniform w (draws e') 50%Q 100%Q)
          /\ float (format_1f (uniform w (draws e') 50%Q 100%Q)) = Return q
          /\ Agents.progress r = q
          /\ (50 <= q <= 100)%Q
          /\ ~ In "is_simulated" (Agents.keys r))
    /\ (forall (e e' : Env) (x : exn),
           stream_response w "gemini-2.0-flash-001" (Metadata.image_uri im)
             ProjectManagement.prompt_text e = (Raise x, e') ->
           exists r q,
             fst (ProjectManagement.analyze_one w im e) = Return r
             /\ ProjectManagement.description r
                = simulated_text (Metadata.image_uri im) (uniform w (draws e') 50%Q 100%Q)
             /\ float (format_1f (uniform w (draws e') 50%Q 100%Q)) = Return q
             /\ ProjectManagement.progress r = q
             /\ (50 <= q <= 100)%Q
             /\ ~ In "is_simulated" (ProjectManagement.keys r)).
Proof.
  intros w im Hw Huri. split.
  - intros pd e e' x Hreq.
    destruct (agents_analyze_one_returns w pd im e) as [r [Hr [Ha Hp]]].
    rewrite Hreq in Ha.
    destruct (simulated_progress w (draws e') _ Hw Huri) as [q [Hq [Hs Hrange]]].
    exists r, q. split; [exact Hr|]. split; [exact Ha|]. split; [exact Hq|].
    split; [rewrite Ha, Hs in Hp; now injection Hp|]. split; [exact Hrange|].
    cbn. intros [H|[H|[]]]; discriminate.
  - intros e e' x Hreq.
    destruct (pm_analyze_one_returns w im e) as [r [Hr [Ha Hp]]].
    rewrite Hreq in Ha.
    destruct (simulated_progress w (draws e') _ Hw Huri) as [q [Hq [Hs Hrange]]].
    exists r, q. split; [exact Hr|]. split; [exact Ha|]. split; [exact Hq|].
    split; [rewrite Ha, Hs in Hp; now injection Hp|]. split; [exact Hrange|].
    cbn. intros [H|[H|[H|[]]]]; discriminate.
Qed.

Lemma simulated_progress_without_uri_digits_witness :
  uniform_in_range w_down
  /\ no_digit (Metadata.image_uri plain_image) = true
  /\ Agents.request w_down None (Metadata.image_uri plain_image) env0
     = (Raise (Exception "NameError" "name 'project_details' is not defined"), env0)
  /\ (exists r q,
         fst (Agents.analyze_one w_down None plain_image env0) = Return r
         /\ Agents.analysis r
            = simulated_text (Metadata.image_uri plain_image)
                (uniform w_down (draws env0) 50%Q 100%Q)
         /\ float (format_1f (uniform w_down (draws env0) 50%Q 100%Q)) = Return q
         /\ Agents.progress r = q
         /\ (50 <= q <= 100)%Q
         /\ ~ In "is_simulated" (Agents.keys r)).
Proof.
  split; [exact w_down_in_range|]. split; [reflexivity|]. split; [reflexivity|].
  exact (proj1 (simulated_progress_without_uri_digits w_down plain_image
                  w_down_in_range eq_refl)
           None env0 env0
           (Exception "NameError" "name 'project_details' is not defined") eq_refl).
Defined.

(** C3 as stated fails: no result has a key [is_simulated]; and the
    locators of the sample images hold a digit, which the extraction reads
    before it reaches the percentage of the fallback text. *)
Lemma simulated_progress_read_from_uri :
  exists rs,
    fst (ProjectManagement.analyze_images w_down
           ProjectManagement.SAMPLE_IMAGE_METADATA env0) = Return rs
    /\ List.length rs = 3%nat
    /\ Forall (fun r =>
                 ProjectManagement.description r
                 = simulated_text (ProjectManagement.image_uri r) 75%Q
                 /\ ProjectManagement.progress r = 1%Q
                 /\ ~ (50 <= ProjectManagement.progress r <= 100)%Q
                 /\ ~ In "is_simulated" (ProjectManagement.keys r)) rs.
Proof.
  eexists. split; [vm_compute; reflexivity|]. split; [reflexivity|].
  repeat constructor;
    try (intros [H _]; vm_compute in H; now apply H);
    try (cbn; intros [H|[H|[H|[]]]]; discriminate).
Qed.

(* ------------------------------------------------------------------ *)
(** ** Further properties of the extraction *)

Lemma span_while_append_stops (p : ascii -> bool) (s t : string) :
  stops p t ->
  span_while p (s ++ t) = (fst (span_while p s), snd (span_while p s) ++ t).
Proof.
  intros Ht. induction s as [|c s IH]; cbn [append span_while fst snd].
  - destruct t as [|x t]; [reflexivity|]. cbn in Ht |- *. now rewrite Ht.
  - destruct (p c); [|reflexivity].
    rewrite IH. now destruct (span_while p s).
Qed.

Lemma goes_on_stops (rest : string) : goes_on rest = false -> stops is_digit rest.
Proof.
  destruct rest as [|c r]; cbn; [trivial|].
  intros H. now apply orb_false_iff in H as [H _].
Qed.

(** A run of digits followed by a text into which it does not go on is
    the numeral at the head of the whole. *)
Lemma numeral_at_int_run (i rest : string) :
  all_chars is_digit i = true -> goes_on rest = false ->
  Spec.numeral_at (i ++ rest) = i.
Proof.
  intros Di Hrest. unfold Spec.numeral_at.
  rewrite (span_while_run is_digit i rest Di (goes_on_stops rest Hrest)).
  destruct rest as [|x r]; [reflexivity|].
  cbn [goes_on] in Hrest. apply orb_false_iff in Hrest as [_ Hdot].
  destruct (Ascii.eqb x ".") eqn:Ex.
  - apply Ascii.eqb_eq in Ex; subst x. cbn [andb] in Hdot.
    destruct r as [|d r]; [reflexivity|].
    cbn [span_while]. now rewrite Hdot.
  - apply Ascii.eqb_neq in Ex.
    destruct x as [[] [] [] [] [] [] [] []]; try reflexivity.
    now contradiction Ex.
Qed.

(** X1. The progress is read from the first numeral alone: the text
    before it, which holds no digit, and the text after it, into which it
    does not go on, do not count. *)
Theorem progress_of_first_numeral :
  forall p t rest : string,
    no_digit p = true -> numeral t -> goes_on rest = false ->
    progress_estimate (p ++ t ++ rest) = float t.
Proof.
  intros p t rest Hp Ht Hrest.
  rewrite progress_estimate_first_numeral, (first_numeral_skip p _ Hp).
  destruct Ht as [i Hi Di | i f Hi Di Hf Df].
  - rewrite (first_numeral_digit_head i rest Hi Di).
    now rewrite (numeral_at_int_run i rest Di Hrest).
  - rewrite !append_assoc.
    rewrite (first_numeral_digit_head i _ Hi Di).
    now rewrite (numeral_at_frac_run i f rest Di Df Hf (goes_on_stops rest Hrest)).
Qed.

Lemma progress_of_first_numeral_witness :
  progress_estimate ("Progress: " ++ "80" ++ "% done, 20% left") = float "80"
  /\ float "80" = Return 80%Q.
Proof.
  split; [|reflexivity].
  apply (progress_of_first_numeral "Progress: " "80" "% done, 20% left").
  - reflexivity.
  - apply (numeral_int "80"); [discriminate | reflexivity].
  - reflexivity.
Defined.

(** A point and a blank after a text do not change the numeral at its
    head. *)
Lemma numeral_at_append_tail (s r : string) :
  Spec.numeral_at (s ++ String "." (String " " r)) = Spec.numeral_at s.
Proof.
  unfold Spec.numeral_at.
  rewrite span_while_append_stops by reflexivity.
  destruct (span_while is_digit s) as [d r0]. cbn [fst snd].
  destruct r0 as [|x r0']; [reflexivity|].
  cbn [append].
  destruct (Ascii.eqb x ".") eqn:Ex.
  - apply Ascii.eqb_eq in Ex; subst x.
    rewrite span_while_append_stops by reflexivity.
    now destruct (span_while is_digit r0').
  - apply Ascii.eqb_neq in Ex.
    destruct x as [[] [] [] [] [] [] [] []]; try reflexivity.
    now contradiction Ex.
Qed.

Lemma first_numeral_append_tail (s r : string) :
  no_digit s = false ->
  Spec.first_numeral (s ++ String "." (String " " r)) = Spec.first_numeral s.
Proof.
  induction s as [|c s IH]; [discriminate|].
  unfold no_digit. cbn [all_chars append Spec.first_numeral].
  destruct (is_digit c) eqn:Ec; cbn [negb andb].
  - intros _. f_equal.
    exact (numeral_at_append_tail (String c s) r).
  - exact IH.
Qed.

(** X2. When the locator of the image holds a digit, the progress of a
    fallback result is the first number of the locator: it does not
    depend on the random number that was drawn. *)
Theorem fallback_progress_read_from_uri :
  forall (image_uri : string) (x : Q),
    no_digit image_uri = false ->
    progress_estimate (simulated_text image_uri x) = progress_estimate image_uri.
Proof.
  intros image_uri x Huri.
  rewrite !progress_estimate_first_numeral. unfold simulated_text.
  rewrite (first_numeral_skip "Simulated analysis for image ") by reflexivity.
  change (". The site appears to be at approximately "
          ++ format_1f x ++ "% progress with visible structural developments.")
    with (String "." (String " "
            ("The site appears to be at approximately "
             ++ format_1f x ++ "% progress with visible structural developments."))).
  now rewrite (first_numeral_append_tail image_uri _ Huri).
Qed.

Lemma fallback_progress_read_from_uri_witness :
  no_digit "gs://site_comparisons/Project_images/Project_Aug_1.png" = false
  /\ progress_estimate
       (simulated_text "gs://site_comparisons/Project_images/Project_Aug_1.png" 87.5%Q)
     = progress_estimate "gs://site_comparisons/Project_images/Project_Aug_1.png"
  /\ progress_estimate "gs://site_comparisons/Project_images/Project_Aug_1.png"
     = Return 1%Q.
Proof.
  split; [reflexivity|]. split; [|reflexivity].
  apply (fallback_progress_read_from_uri
           "gs://site_comparisons/Project_images/Project_Aug_1.png" 87.5%Q).
  reflexivity.
Defined.

(* ------------------------------------------------------------------ *)
(** ** Printing with one decimal and reading back *)

Lemma round_half_even_error (y : Q) :
  (y - (1 # 2) <= inject_Z (round_half_even y)
   /\ inject_Z (round_half_even y) <= y + (1 # 2))%Q.
Proof.
  unfold round_half_even, Qle, Qminus, Qplus, Qopp, inject_Z; cbn [Qnum Qden].
  pose proof (Z.div_mod (Qnum y) (Zpos (Qden y)) ltac:(discriminate)) as Hdm.
  pose proof (Z.mod_pos_bound (Qnum y) (Zpos (Qden y)) ltac:(reflexivity)) as Hr.
  rewrite !Pos2Z.inj_mul.
  destruct (Z.compare_spec (2 * (Qnum y mod Zpos (Qden y))) (Zpos (Qden y)));
    [destruct (Z.even _)| |]; split; nia.
Qed.

Lemma round_half_even_nonneg (x : Q) :
  (0 <= x)%Q -> (0 <= round_half_even (x * 10))%Z.
Proof.
  intros Hx. apply round_half_even_lower. change (inject_Z 0) with 0%Q. lra.
Qed.

Lemma format_1f_nonneg (x : Q) :
  (0 <= x)%Q ->
  format_1f x
  = decimal (round_half_even (x * 10) / 10) ++ "."
    ++ decimal (round_half_even (x * 10) mod 10).
Proof.
  intros Hx. pose proof (round_half_even_nonneg x Hx) as Ht. unfold format_1f.
  assert (H0 : Qle_bool 0 x = true) by (now apply Qle_bool_iff).
  rewrite H0, Z.abs_eq by lia. reflexivity.
Qed.

Lemma float_format_1f_nonneg (x : Q) :
  (0 <= x)%Q ->
  exists q, float (format_1f x) = Return q
            /\ (q == inject_Z (round_half_even (x * 10)) / 10)%Q.
Proof.
  intros Hx. pose proof (round_half_even_nonneg x Hx) as Ht.
  rewrite (format_1f_nonneg x Hx).
  set (t := round_half_even (x * 10)) in *.
  rewrite float_frac by (try apply decimal_nonempty; apply decimal_digits).
  eexists; split; [reflexivity|].
  rewrite !decimal_value, decimal_one_digit by (apply Z.mod_pos_bound; lia).
  unfold Q_of_N. rewrite !Z2N.id by (try apply Z.div_pos; try apply Z.mod_pos_bound; lia).
  change (inject_Z (Z.of_N (10 ^ N.of_nat 1))) with 10%Q.
  rewrite (Z.div_mod t 10) at 3 by lia.
  rewrite inject_Z_plus, inject_Z_mult. change (inject_Z 10) with 10%Q. field.
Qed.

Lemma format_1f_read_back (x : Q) :
  (0 <= x)%Q ->
  exists q, float (format_1f x) = Return q
            /\ (x - (1 # 20) <= q <= x + (1 # 20))%Q.
Proof.
  intros Hx. destruct (float_format_1f_nonneg x Hx) as [q [Hq Hv]].
  exists q. split; [exact Hq|].
  destruct (round_half_even_error (x * 10)) as [Hlo Hhi].
  rewrite Hv. set (t := inject_Z (round_half_even (x * 10))) in *.
  unfold Qdiv. setoid_replace (/ 10)%Q with (1 # 10)%Q by reflexivity.
  split; lra.
Qed.

(* ------------------------------------------------------------------ *)
(** ** The stream and its chunks *)

Lemma concat_chunks_texts (texts : list string) :
  forall acc : string,
    concat_chunks acc (map Some texts) = Return (acc ++ join texts).
Proof.
  induction texts as [|t texts IH]; intros acc; cbn [map concat_chunks join fold_right].
  - now rewrite append_nil_r.
  - rewrite IH. unfold join. now rewrite append_assoc.
Qed.

Lemma concat_chunks_without_text (chunks : list (option string)) :
  In None chunks -> forall acc : string, exists x, concat_chunks acc chunks = Raise x.
Proof.
  induction chunks as [|[t|] chunks IH]; intros Hin acc; cbn [concat_chunks].
  - contradiction.
  - destruct Hin as [H|H]; [discriminate | now apply IH].
  - eexists; reflexivity.
Qed.

(** What the loop over the stream returns, from the reply of the model. *)
Lemma stream_response_texts (w : World) (model uri prompt : string) (e : Env)
    (texts : list string) :
  generate_content_stream w (requests e) model uri prompt = (map Some texts, None) ->
  stream_response w model uri prompt e
  = (Return (join texts), mkEnv (stdout e) (draws e) (S (requests e))).
Proof.
  intros H. unfold stream_response. rewrite H, concat_chunks_texts. reflexivity.
Qed.

Lemma stream_response_raises (w : World) (model uri prompt : string) (e : Env)
    (chunks : list (option string)) (failure : option exn) :
  generate_content_stream w (requests e) model uri prompt = (chunks, failure) ->
  In None chunks \/ failure <> None ->
  exists x, stream_response w model uri prompt e
            = (Raise x, mkEnv (stdout e) (draws e) (S (requests e))).
Proof.
  intros H Hbad. unfold stream_response. rewrite H.
  destruct (concat_chunks "" chunks) as [text|x] eqn:Ec; [|now exists x].
  destruct failure as [x|]; [now exists x|].
  destruct Hbad as [Hin|Hf]; [|now contradiction Hf].
  destruct (concat_chunks_without_text chunks Hin "") as [x Hx]. congruence.
Qed.

(** X5. When every chunk of the reply has a text and the stream ends
    well, the narrative of the result is the texts of the chunks joined in
    order; nothing is printed and no random number is drawn. *)
Theorem analyze_one_joins_chunks :
  forall (w : World) (im : Metadata.t) (e : Env) (texts : list string),
    generate_content_stream w (requests e) "gemini-2.0-flash-001"
      (Metadata.image_uri im) ProjectManagement.prompt_text
    = (map Some texts, None) ->
    exists q,
      ProjectManagement.analyze_one w im e
      = (Return (ProjectManagement.mkAnalysis (Metadata.image_uri im) (join texts) q),
         mkEnv (stdout e) (draws e) (S (requests e)))
      /\ progress_estimate (join texts) = Return q.
Proof.
  intros w im e texts H. unfold ProjectManagement.analyze_one. run_monad.
  rewrite (stream_response_texts w _ _ _ e texts H).
  destruct (progress_estimate_returns (join texts)) as [q [Hq _]].
  rewrite Hq. now exists q.
Qed.

Lemma analyze_one_joins_chunks_witness :
  exists q,
    ProjectManagement.analyze_one w_over plain_image env0
    = (Return (ProjectManagement.mkAnalysis (Metadata.image_uri plain_image)
                 (join ["Work stands at 150% "; "of the planned volume."]) q),
       mkEnv (stdout env0) (draws env0) (S (requests env0)))
    /\ progress_estimate (join ["Work stands at 150% "; "of the planned volume."])
       = Return q.
Proof.
  apply (analyze_one_joins_chunks w_over plain_image env0
           ["Work stands at 150% "; "of the planned volume."]).
  reflexivity.
Defined.

(** X6. When a chunk of the reply has no text, or the stream ends with
    an exception, the whole reply is dropped, the texts already received
    included: the narrative is the fallback text, one line is printed
    and one random number is drawn. *)
Theorem analyze_one_drops_broken_reply :
  forall (w : World) (im : Metadata.t) (e : Env)
         (chunks : list (option string)) (failure : option exn),
    generate_content_stream w (requests e) "gemini-2.0-flash-001"
      (Metadata.image_uri im) ProjectManagement.prompt_text
    = (chunks, failure) ->
    In None chunks \/ failure <> None ->
    exists r line,
      ProjectManagement.analyze_one w im e
      = (Return r, mkEnv (stdout e ++ [line]) (S (draws e)) (S (requests e)))
      /\ ProjectManagement.description r
         = simulated_text (Metadata.image_uri im) (uniform w (draws e) 50%Q 100%Q).
Proof.
  intros w im e chunks failure H Hbad.
  destruct (stream_response_raises w _ _ _ e chunks failure H Hbad) as [x Hx].
  unfold ProjectManagement.analyze_one. run_monad. rewrite Hx. run_monad.
  destruct (progress_estimate_returns
              (simulated_text (Metadata.image_uri im) (uniform w (draws e) 50%Q 100%Q)))
    as [q [Hq _]].
  rewrite Hq. do 2 eexists. split; reflexivity.
Qed.

Lemma analyze_one_drops_broken_reply_witness :
  exists r line,
    ProjectManagement.analyze_one w_broken plain_image env0
    = (Return r, mkEnv (stdout env0 ++ [line]) (S (draws env0)) (S (requests env0)))
    /\ ProjectManagement.description r
       = simulated_text (Metadata.image_uri plain_image)
           (uniform w_broken (draws env0) 50%Q 100%Q).
Proof.
  apply (analyze_one_drops_broken_reply w_broken plain_image env0
           [Some "Progress is 80%"; None] None).
  - reflexivity.
  - left. right. left. reflexivity.
Defined.

(* ------------------------------------------------------------------ *)
(** ** What a run of [analyze_images] does to its environment *)

(** One iteration: one request; either nothing else, or one line and one
    random number. *)
Lemma pm_analyze_one_effects (w : World) (im : Metadata.t) (e : Env) :
  exists r e',
    ProjectManagement.analyze_one w im e = (Return r, e')
    /\ ProjectManagement.image_uri r = Metadata.image_uri im
    /\ requests e' = S (requests e)
    /\ ((draws e' = draws e /\ stdout e' = stdout e)
        \/ (draws e' = S (draws e) /\ exists line, stdout e' = (stdout e ++ [line])%list)).
Proof.
  unfold ProjectManagement.analyze_one. run_monad.
  destruct (stream_response w "gemini-2.0-flash-001" (Metadata.image_uri im)
              ProjectManagement.prompt_text e) as [[text|x] e1] eqn:Es.
  - destruct (progress_estimate_returns text) as [q [Hq _]]. rewrite Hq.
    do 2 eexists. split; [reflexivity|]. split; [reflexivity|].
    unfold stream_response in Es.
    destruct (generate_content_stream w (requests e) "gemini-2.0-flash-001"
                (Metadata.image_uri im) ProjectManagement.prompt_text) as [chunks failure].
    destruct (concat_chunks "" chunks); [|discriminate].
    destruct failure; [discriminate|]. injection Es as _ <-. cbn. auto.
  - run_monad.
    destruct (progress_estimate_returns
                (simulated_text (Metadata.image_uri im) (uniform w (draws e1) 50%Q 100%Q)))
      as [q [Hq _]].
    rewrite Hq. do 2 eexists. split; [reflexivity|]. split; [reflexivity|].
    unfold stream_response in Es.
    destruct (generate_content_stream w (requests e) "gemini-2.0-flash-001"
                (Metadata.image_uri im) ProjectManagement.prompt_text) as [chunks failure].
    assert (He1 : e1 = mkEnv (stdout e) (draws e) (S (requests e))).
    { destruct (concat_chunks "" chunks); [destruct failure|]; now injection Es. }
    subst e1. cbn. split; [reflexivity|]. right. split; [reflexivity|]. eexists; reflexivity.
Qed.

Lemma pm_analyze_loop_effects (w : World) (imgs : list Metadata.t) :
  forall (acc : list ProjectManagement.Analysis) (e : Env),
  exists rs e',
    ProjectManagement.analyze_loop w imgs acc e = (Return (acc ++ rs)%list, e')
    /\ map ProjectManagement.image_uri rs = map Metadata.image_uri imgs
    /\ requests e' = (requests e + List.length imgs)%nat
    /\ (draws e <= draws e' <= draws e + List.length imgs)%nat
    /\ List.length (stdout e') = (List.length (stdout e) + (draws e' - draws e))%nat.
Proof.
  induction imgs as [|im imgs IH]; intros acc e; cbn [ProjectManagement.analyze_loop].
  - exists [], e. rewrite app_nil_r. cbn. repeat split; lia.
  - unfold bind.
    destruct (pm_analyze_one_effects w im e) as [r [e1 [H1 [Huri [Hreq Hd]]]]].
    rewrite H1.
    destruct (IH (acc ++ [r])%list e1) as [rs [e2 [H2 [Hmap [Hreq2 [Hd2 Hout]]]]]].
    exists (r :: rs), e2. rewrite H2, <- app_assoc.
    split; [reflexivity|]. split; [cbn; now rewrite Huri, Hmap|].
    cbn [List.length].
    destruct Hd as [[Hdr Hso] | [Hdr [line Hso]]].
    + rewrite Hdr, Hso in *. repeat split; lia.
    + rewrite Hso, length_app in Hout. cbn [List.length] in Hout.
      repeat split; lia.
Qed.

(** X7. The results of [analyze_images] carry the locators of the
    images, in the order of the input. *)
Theorem analyze_images_keeps_locators :
  forall (w : World) (imgs : list Metadata.t) (e : Env),
    exists rs, fst (ProjectManagement.analyze_images w imgs e) = Return rs
               /\ map ProjectManagement.image_uri rs = map Metadata.image_uri imgs.
Proof.
  intros w imgs e.
  destruct (pm_analyze_loop_effects w imgs [] e) as [rs [e' [H [Hmap _]]]].
  exists rs. unfold ProjectManagement.analyze_images. now rewrite H.
Qed.

(** X8. A run of [analyze_images] sends one request per image; it prints
    one line for every random number it draws, and draws at most one per
    image. *)
Theorem analyze_images_effects :
  forall (w : World) (imgs : list Metadata.t) (e : Env),
    let e' := snd (ProjectManagement.analyze_images w imgs e) in
    requests e' = (requests e + List.length imgs)%nat
    /\ (draws e <= draws e' <= draws e + List.length imgs)%nat
    /\ List.length (stdout e') = (List.length (stdout e) + (draws e' - draws e))%nat.
Proof.
  intros w imgs e.
  destruct (pm_analyze_loop_effects w imgs [] e) as [rs [e1 [H [_ Hrest]]]].
  unfold ProjectManagement.analyze_images. rewrite H. exact Hrest.
Qed.

(* ------------------------------------------------------------------ *)
(** ** [analyze_image] with [project_details] unbound *)

Lemma agents_unbound_loop (w : World) (imgs : list Metadata.t) :
  forall (acc : list Agents.Analysis) (e : Env),
  exists rs e',
    Agents.analyze_loop w None imgs acc e = (Return (acc ++ rs)%list, e')
    /\ map Agents.analysis rs = fallback_narratives w (draws e) imgs
    /\ Forall (fun r => progress_estimate (Agents.analysis r) = Return (Agents.progress r)) rs
    /\ requests e' = requests e
    /\ draws e' = (draws e + List.length imgs)%nat
    /\ List.length (stdout e') = (List.length (stdout e) + List.length imgs)%nat.
Proof.
  induction imgs as [|im imgs IH]; intros acc e; cbn [Agents.analyze_loop].
  - exists [], e. rewrite app_nil_r. cbn. repeat split; auto; lia.
  - unfold bind at 1. unfold Agents.analyze_one, Agents.request. run_monad.
    destruct (progress_estimate_returns
                (simulated_text (Metadata.image_uri im) (uniform w (draws e) 50%Q 100%Q)))
      as [q [Hq _]].
    rewrite Hq.
    match goal with
    | |- context [Agents.analyze_loop w None imgs ?a ?e1] =>
        destruct (IH a e1) as [rs [e2 [H2 [Hmap [Hp [Hreq [Hd Hout]]]]]]]
    end.
    cbn [draws requests stdout] in *.
    eexists (_ :: rs), e2. rewrite H2, <- app_assoc.
    split; [reflexivity|]. cbn [map fallback_narratives Agents.analysis List.length].
    split; [now rewrite Hmap|]. split; [constructor; [exact Hq | exact Hp]|].
    rewrite length_app in Hout. cbn [List.length] in Hout.
    repeat split; lia.
Qed.

(** X9. As [agents.py] never binds [project_details], [analyze_image]
    sends no request: every result is a fallback, one per image and in
    order, each with its own random number and its own printed line. *)
Theorem analyze_image_unbound_project_details :
  forall (T : Type) (tc : T) (w : World) (imgs : list Metadata.t) (e : Env),
    exists rs e',
      Agents.analyze_image tc w None imgs e = (Return rs, e')
      /\ map Agents.analysis rs = fallback_narratives w (draws e) imgs
      /\ requests e' = requests e
      /\ draws e' = (draws e + List.length imgs)%nat
      /\ List.length (stdout e') = (List.length (stdout e) + List.length imgs)%nat.
Proof.
  intros T tc w imgs e.
  destruct (agents_unbound_loop w imgs [] e) as [rs [e' [H [Hmap [_ Hrest]]]]].
  exists rs, e'. unfold Agents.analyze_image. rewrite H. auto.
Qed.

(* ------------------------------------------------------------------ *)
(** ** Analyzing a list in two parts *)

Lemma pm_analyze_loop_app (w : World) (l1 l2 : list Metadata.t) :
  forall (acc : list ProjectManagement.Analysis) (e : Env),
    ProjectManagement.analyze_loop w (l1 ++ l2) acc e
    = bind (ProjectManagement.analyze_loop w l1 acc)
           (fun rs => ProjectManagement.analyze_loop w l2 rs) e.
Proof.
  induction l1 as [|im l1 IH]; intros acc e.
  - reflexivity.
  - cbn [app ProjectManagement.analyze_loop].
    change (bind (bind (ProjectManagement.analyze_one w im) ?f) ?g e)
      with (match bind (ProjectManagement.analyze_one w im) f e with
            | (Return a, e') => g a e'
            | (Raise x, e') => (Raise x, e')
            end).
    change (bind (ProjectManagement.analyze_one w im) ?f e)
      with (match ProjectManagement.analyze_one w im e with
            | (Return a, e') => f a e'
            | (Raise x, e') => (Raise x, e')
            end).
    destruct (ProjectManagement.analyze_one w im e) as [[r|x] e1]; [|reflexivity].
    apply IH.
Qed.

(** X10. Analyzing a list is analyzing a first part of it, then the
    rest in the environment the first part left, and joining the results. *)
Theorem analyze_images_in_two_parts :
  forall (w : World) (l1 l2 : list Metadata.t) (e : Env),
    ProjectManagement.analyze_images w (l1 ++ l2) e
    = (rs1 <- ProjectManagement.analyze_images w l1 ;;
       rs2 <- ProjectManagement.analyze_images w l2 ;;
       ret (rs1 ++ rs2)%list)%py e.
Proof.
  intros w l1 l2 e. unfold ProjectManagement.analyze_images.
  rewrite pm_analyze_loop_app. unfold bind.
  destruct (ProjectManagement.analyze_loop w l1 [] e) as [[rs1|x] e1]; [|reflexivity].
  rewrite (pm_analyze_loop_acc w l2 rs1 e1).
  now destruct (ProjectManagement.analyze_loop w l2 [] e1) as [[rs2|x] e2].
Qed.

(* ------------------------------------------------------------------ *)
(** ** The size of the overall progress *)

Lemma sum_bounds (lo hi : Q) (ps : list Q) :
  Forall (fun p => (lo <= p <= hi)%Q) ps ->
  (inject_Z (Z.of_nat (List.length ps)) * lo <= Spec.sum ps
   /\ Spec.sum ps <= inject_Z (Z.of_nat (List.length ps)) * hi)%Q.
Proof.
  induction 1 as [|p ps [Hlo Hhi] _ [IHlo IHhi]]; unfold Spec.sum in *;
    cbn [List.length fold_right].
  - change (inject_Z (Z.of_nat 0)) with 0%Q. split; lra.
  - rewrite Nat2Z.inj_succ, <- Z.add_1_r, inject_Z_plus.
    change (inject_Z 1) with 1%Q. split; lra.
Qed.

(** The overall progress of a list that is not empty, as a quotient. *)
Lemma overall_progress_quotient {T : Type} (tc : T) (a : Agents.Analysis)
    (l : list Agents.Analysis) (e : Env) :
  exists r, fst (Agents.consolidate_analysis tc (a :: l) e) = Return r
            /\ Agents.timeline r = a :: l
            /\ (Agents.overall_progress r
                == Spec.sum (map Agents.progress (a :: l))
                   / inject_Z (Z.of_nat (List.length (a :: l))))%Q.
Proof.
  rewrite consolidate_analysis_returns. eexists; split; [reflexivity|].
  split; [reflexivity|].
  cbn [Agents.overall_progress List.length Nat.ltb Nat.leb].
  rewrite (proj2 (consolidate_loop_spec (a :: l) [] 0%Q)).
  now rewrite Qplus_0_l.
Qed.

Lemma length_pos_Q {A : Type} (a : A) (l : list A) :
  (0 < inject_Z (Z.of_nat (List.length (a :: l))))%Q.
Proof.
  change 0%Q with (inject_Z 0). rewrite <- Zlt_Qlt. cbn [List.length]. lia.
Qed.

Lemma overall_progress_bounded {T : Type} (tc : T) (l : list Agents.Analysis)
    (e : Env) (lo hi : Q) :
  l <> [] ->
  Forall (fun a => (lo <= Agents.progress a <= hi)%Q) l ->
  exists r, fst (Agents.consolidate_analysis tc l e) = Return r
            /\ (lo <= Agents.overall_progress r <= hi)%Q.
Proof.
  intros Hne Hall. destruct l as [|a l]; [contradiction|].
  destruct (overall_progress_quotient tc a l e) as [r [Hr [_ Hq]]].
  exists r. split; [exact Hr|]. rewrite Hq.
  assert (Hps : Forall (fun p => (lo <= p <= hi)%Q) (map Agents.progress (a :: l))).
  { apply Forall_map. exact Hall. }
  destruct (sum_bounds lo hi _ Hps) as [Hlo Hhi].
  rewrite length_map in Hlo, Hhi.
  pose proof (length_pos_Q a l) as Hn.
  split.
  - apply Qle_shift_div_l; [exact Hn|]. now rewrite Qmult_comm.
  - apply Qle_shift_div_r; [exact Hn|]. now rewrite Qmult_comm.
Qed.

(* ------------------------------------------------------------------ *)
(** ** The analyzer followed by the consolidator *)

Lemma sum_nonneg (ps : list Q) :
  Forall (fun p => (0 <= p)%Q) ps -> (0 <= Spec.sum ps)%Q.
Proof.
  induction 1 as [|p ps Hp _ IH]; unfold Spec.sum in *; cbn [fold_right];
    [apply Qle_refl | lra].
Qed.

Lemma overall_progress_nonneg {T : Type} (tc : T) (l : list Agents.Analysis) (e : Env) :
  Forall (fun a => (0 <= Agents.progress a)%Q) l ->
  exists r, fst (Agents.consolidate_analysis tc l e) = Return r
            /\ Agents.timeline r = l
            /\ (0 <= Agents.overall_progress r)%Q.
Proof.
  intros Hall. destruct l as [|a l].
  - rewrite consolidate_analysis_returns. eexists; split; [reflexivity|].
    split; [reflexivity | apply Qle_refl].
  - destruct (overall_progress_quotient tc a l e) as [r [Hr [Ht Hq]]].
    exists r. split; [exact Hr|]. split; [exact Ht|]. rewrite Hq.
    apply Qle_shift_div_l; [apply length_pos_Q|]. rewrite Qmult_0_l.
    apply sum_nonneg, Forall_map. exact Hall.
Qed.

(** X13. The results of [analyze_image] handed to [consolidate_analysis]
    give a report in every world: its timeline has one entry per image and
    its overall progress is not negative. *)
Theorem analyze_then_consolidate :
  forall (T : Type) (tc : T) (w : World) (pd : option dict)
         (imgs : list Metadata.t) (e : Env),
    exists report,
      fst ((rs <- Agents.analyze_image tc w pd imgs ;;
            Agents.consolidate_analysis tc rs)%py e) = Return report
      /\ List.length (Agents.timeline report) = List.length imgs
      /\ (0 <= Agents.overall_progress report)%Q.
Proof.
  intros T tc w pd imgs e. unfold bind.
  destruct (agents_analyze_image_returns tc w pd imgs e) as [rs [Hrs HF]].
  destruct (Agents.analyze_image tc w pd imgs e) as [res e1]. cbn [fst] in Hrs. subst res.
  destruct (overall_progress_nonneg tc rs e1 (agents_progress_nonneg w pd imgs rs HF))
    as [report [Hr [Ht H0]]].
  exists report. split; [exact Hr|]. split; [|exact H0].
  rewrite Ht. symmetry. exact (Forall2_length HF).
Qed.

Lemma fallback_progress_in_range (w : World) (imgs : list Metadata.t) :
  uniform_in_range w ->
  Forall (fun im => no_digit (Metadata.image_uri im) = true) imgs ->
  forall (k : nat) (rs : list Agents.Analysis),
    map Agents.analysis rs = fallback_narratives w k imgs ->
    Forall (fun r => progress_estimate (Agents.analysis r) = Return (Agents.progress r)) rs ->
    Forall (fun r => (50 <= Agents.progress r <= 100)%Q) rs.
Proof.
  intros Hw Himgs. induction Himgs as [|im imgs Him _ IH]; intros k rs Hmap Hp.
  - destruct rs; [constructor | discriminate].
  - destruct rs as [|r rs]; [discriminate|].
    cbn [map fallback_narratives] in Hmap. injection Hmap as Ha Hmap.
    inversion Hp as [|? ? Hr Hrs]; subst.
    constructor; [|exact (IH (S k) rs Hmap Hrs)].
    destruct (simulated_progress w k _ Hw Him) as [q [_ [Hs Hrange]]].
    rewrite Ha, Hs in Hr. now injection Hr as <-.
Qed.

(** X14. With [project_details] unbound, images whose locators hold no
    digit and a list that is not empty, the consolidated overall progress
    lies between 50 and 100: it is made of random numbers alone. *)
Theorem overall_progress_of_fallbacks :
  forall (T : Type) (tc : T) (w : World) (imgs : list Metadata.t) (e : Env),
    uniform_in_range w ->
    Forall (fun im => no_digit (Metadata.image_uri im) = true) imgs ->
    imgs <> [] ->
    exists report,
      fst ((rs <- Agents.analyze_image tc w None imgs ;;
            Agents.consolidate_analysis tc rs)%py e) = Return report
      /\ (50 <= Agents.overall_progress report <= 100)%Q.
Proof.
  intros T tc w imgs e Hw Himgs Hne. unfold bind, Agents.analyze_image.
  destruct (agents_unbound_loop w imgs [] e) as [rs [e1 [H [Hmap [Hp _]]]]].
  rewrite H. cbn [app].
  apply overall_progress_bounded.
  - destruct imgs; [contradiction|]. destruct rs; discriminate.
  - exact (fallback_progress_in_range w imgs Hw Himgs (draws e) rs Hmap Hp).
Qed.

Lemma overall_progress_of_fallbacks_witness :
  exists report,
    fst ((rs <- Agents.analyze_image tt w_down None [plain_image] ;;
          Agents.consolidate_analysis tt rs)%py env0) = Return report
    /\ (50 <= Agents.overall_progress report <= 100)%Q.
Proof.
  apply (overall_progress_of_fallbacks unit tt w_down [plain_image] env0).
  - exact w_down_in_range.
  - repeat constructor.
  - discriminate.
Defined.

(* ------------------------------------------------------------------ *)
(** ** The executive summary *)

(** X15. [generate_executive_summary] does not catch: when a chunk of
    the reply has no text or the stream ends with an exception, it raises,
    after one request, without a printed line or a random number. *)
Theorem executive_summary_raises :
  forall (str : list ProjectManagement.Analysis -> string) (w : World)
         (analysis_results : list ProjectManagement.Analysis) (e : Env)
         (chunks : list (option string)) (failure : option exn),
    generate_content_stream w (requests e) "gemini-1.5-pro-002" ""
      (ExecutiveSummary.summary_prompt str analysis_results) = (chunks, failure) ->
    In None chunks \/ failure <> None ->
    exists x,
      ExecutiveSummary.generate_executive_summary str w analysis_results e
      = (Raise x, mkEnv (stdout e) (draws e) (S (requests e))).
Proof.
  intros str w rs e chunks failure H Hbad.
  exact (stream_response_raises w _ _ _ e chunks failure H Hbad).
Qed.

Lemma executive_summary_raises_witness :
  exists x,
    ExecutiveSummary.generate_executive_summary str_count w_down [] env0
    = (Raise x, mkEnv (stdout env0) (draws env0) (S (requests env0))).
Proof.
  apply (executive_summary_raises str_count w_down [] env0 []
           (Some (Exception "ServerError" "503 Service Unavailable"))).
  - reflexivity.
  - right. discriminate.
Defined.

(** X16. The two calls of the page, [analyze_images] and then
    [generate_executive_summary] on its results (without what the page
    draws between them): failures of the requests for the images never
    stop the run, a broken reply to the request for the summary always
    does, after one request per image and one more. *)
Theorem analyze_then_summary_raises :
  forall (str : list ProjectManagement.Analysis -> string) (w : World)
         (imgs : list Metadata.t) (e : Env)
         (chunks : list (option string)) (failure : option exn),
    (forall prompt,
        generate_content_stream w (requests e + List.length imgs) "gemini-1.5-pro-002" ""
          prompt = (chunks, failure)) ->
    In None chunks \/ failure <> None ->
    exists x e',
      (rs <- ProjectManagement.analyze_images w imgs ;;
       ExecutiveSummary.generate_executive_summary str w rs)%py e = (Raise x, e')
      /\ requests e' = S (requests e + List.length imgs).
Proof.
  intros str w imgs e chunks failure H Hbad. unfold bind.
  destruct (pm_analyze_loop_effects w imgs [] e) as [rs [e1 [H1 [_ [Hreq _]]]]].
  unfold ProjectManagement.analyze_images. rewrite H1. cbn [app].
  specialize (H (ExecutiveSummary.summary_prompt str rs)). rewrite <- Hreq in H.
  destruct (stream_response_raises w _ _ _ e1 chunks failure H Hbad) as [x Hx].
  exists x. eexists. unfold ExecutiveSummary.generate_executive_summary.
  rewrite Hx. split; [reflexivity|]. cbn. now rewrite Hreq.
Qed.

Lemma analyze_then_summary_raises_witness :
  exists x e',
    (rs <- ProjectManagement.analyze_images w_down ProjectManagement.SAMPLE_IMAGE_METADATA ;;
     ExecutiveSummary.generate_executive_summary str_count w_down rs)%py env0
    = (Raise x, e')
    /\ requests e'
       = S (requests env0 + List.length ProjectManagement.SAMPLE_IMAGE_METADATA).
Proof.
  apply (analyze_then_summary_raises str_count w_down
           ProjectManagement.SAMPLE_IMAGE_METADATA env0 []
           (Some (Exception "ServerError" "503 Service Unavailable"))).
  - intros prompt. reflexivity.
  - right. discriminate.
Defined.

(* ------------------------------------------------------------------ *)
(** ** Recommending and ordering images *)

Lemma lower_char_idempotent (c : ascii) : lower_char (lower_char c) = lower_char c.
Proof. destruct c as [[] [] [] [] [] [] [] []]; reflexivity. Qed.

Lemma lower_idempotent (s : string) : lower (lower s) = lower s.
Proof.
  induction s as [|c s IH]; cbn [lower]; [reflexivity|].
  now rewrite lower_char_idempotent, IH.
Qed.

(** What [recommend_image_specs] returns, from the lower-case form of
    the project type. *)
Lemma recommend_image_specs_returns {T : Type} (tc : T) (project_type : string)
    (e : Env) :
  fst (ImageOrdering.recommend_image_specs tc project_type e)
  = Return (ImageOrdering.mkRecommended
              (if String.eqb (lower project_type) "building"
               then ImageOrdering.mkRecommendations "monthly" "0.5m" ["RGB"; "NIR"]
               else if String.eqb (lower project_type) "road"
               then ImageOrdering.mkRecommendations "bi-weekly" "1m" ["RGB"]
               else ImageOrdering.mkRecommendations "monthly" "1m" ["RGB"])).
Proof. reflexivity. Qed.

(** X17. Every recommendation holds the band RGB; the band NIR and the
    resolution 0.5m come with buildings alone, the bi-weekly frequency
    with roads alone, whatever the case of the letters of the project
    type. *)
Theorem recommendation_invariants :
  forall (T : Type) (tc : T) (project_type : string) (e : Env),
    exists r,
      fst (ImageOrdering.recommend_image_specs tc project_type e)
      = Return (ImageOrdering.mkRecommended r)
      /\ In "RGB" (ImageOrdering.spectral_bands r)
      /\ (In "NIR" (ImageOrdering.spectral_bands r) <-> lower project_type = "building")
      /\ (ImageOrdering.resolution r = "0.5m" <-> lower project_type = "building")
      /\ (ImageOrdering.resolution r <> "0.5m" -> ImageOrdering.resolution r = "1m")
      /\ (ImageOrdering.frequency r = "bi-weekly" <-> lower project_type = "road")
      /\ (ImageOrdering.frequency r <> "bi-weekly" -> ImageOrdering.frequency r = "monthly").
Proof.
  intros T tc project_type e. rewrite recommend_image_specs_returns.
  eexists; split; [reflexivity|].
  destruct (String.eqb_spec (lower project_type) "building") as [Hb|Hb].
  - rewrite Hb. cbn. repeat split; auto; try discriminate; intuition discriminate.
  - destruct (String.eqb_spec (lower project_type) "road") as [Hr|Hr]; cbn;
      repeat split; auto; try discriminate; try intuition discriminate;
      intuition congruence.
Qed.

(** X18. The recommendation does not change when the project type is
    put in lower case first. *)
Theorem recommendation_ignores_case :
  forall (T : Type) (tc : T) (project_type : string) (e e' : Env),
    fst (ImageOrdering.recommend_image_specs tc (lower project_type) e)
    = fst (ImageOrdering.recommend_image_specs tc project_type e').
Proof.
  intros T tc project_type e e'. rewrite !recommend_image_specs_returns.
  now rewrite lower_idempotent.
Qed.

Lemma in_Z_range (lo n len : Z) :
  (lo <= n < lo + len)%Z -> In n (Z_range lo len).
Proof.
  intros H. unfold Z_range. apply in_map_iff.
  exists (Z.to_nat (n - lo)). split; [lia | apply in_seq; lia].
Qed.

Lemma decimal_four_digits (n : Z) :
  (1000 <= n <= 9999)%Z -> String.length (decimal n) = 4%nat.
Proof.
  intros H.
  assert (Hall : forallb (fun m => Nat.eqb (String.length (decimal m)) 4)
                   (Z_range 1000 9000) = true) by (vm_compute; reflexivity).
  rewrite forallb_forall in Hall.
  apply Nat.eqb_eq, Hall, in_Z_range. lia.
Qed.

(** X19. When [random.randint] keeps to its range, the identifier of an
    order is "order_" followed by four digits, which denote the number
    drawn; the status is "placed", two lines are printed, of which the
    last ends with the identifier, and nothing of this depends on the
    recommendations. *)
Theorem order_images_identifier :
  forall (T R : Type) (str : R -> string) (randint : nat -> Z -> Z -> Z)
         (tc : T) (recommendations : R) (e : Env),
    randint_in_range randint ->
    exists digits,
      ImageOrdering.order_images str randint tc recommendations e
      = (Return (ImageOrdering.mkOrder "placed" ("order_" ++ digits)),
         mkEnv (stdout e
                ++ ["Ordering images with specifications: " ++ str recommendations;
                    "Image order placed successfully with order ID: order_" ++ digits])
               (S (draws e)) (requests e))
      /\ String.length digits = 4%nat
      /\ all_chars is_digit digits = true
      /\ Z.of_N (digits_value 0 digits) = randint (draws e) 1000%Z 9999%Z.
Proof.
  intros T R str randint tc recommendations e Hrange.
  pose proof (Hrange (draws e) 1000%Z 9999%Z ltac:(lia)) as Hn.
  exists (decimal (randint (draws e) 1000%Z 9999%Z)).
  split.
  - unfold ImageOrdering.order_images.
    cbv beta iota delta [bind ret print random_randint].
    cbn [fst snd stdout draws requests]. unfold str_int.
    destruct (Z.ltb_spec (randint (draws e) 1000%Z 9999%Z) 0); [lia|].
    rewrite <- app_assoc. reflexivity.
  - split; [now apply decimal_four_digits|]. split; [apply decimal_digits|].
    rewrite decimal_value. lia.
Qed.

Lemma randint_low_in_range : randint_in_range randint_low.
Proof. intros k a b H. unfold randint_low. lia. Qed.

Lemma order_images_identifier_witness :
  exists digits,
    ImageOrdering.order_images (fun r : string => r) randint_low tt "RGB, 1m" env0
    = (Return (ImageOrdering.mkOrder "placed" ("order_" ++ digits)),
       mkEnv (stdout env0
              ++ ["Ordering images with specifications: " ++ "RGB, 1m";
                  "Image order placed successfully with order ID: order_" ++ digits])
             (S (draws env0)) (requests env0))
    /\ String.length digits = 4%nat
    /\ all_chars is_digit digits = true
    /\ Z.of_N (digits_value 0 digits) = randint_low (draws env0) 1000%Z 9999%Z.
Proof.
  exact (order_images_identifier unit string (fun r => r) randint_low tt "RGB, 1m" env0
           randint_low_in_range).
Defined.

(* ------------------------------------------------------------------ *)
(** ** The fallback and the number it drew *)

(** X20. When the request for an image whose locator holds no digit
    fails, the progress of the result is within 0.05 of the random number
    that was drawn. *)
Theorem fallback_progress_near_draw :
  forall (w : World) (im : Metadata.t) (e : Env)
         (chunks : list (option string)) (failure : option exn),
    uniform_in_range w ->
    no_digit (Metadata.image_uri im) = true ->
    generate_content_stream w (requests e) "gemini-2.0-flash-001"
      (Metadata.image_uri im) ProjectManagement.prompt_text
    = (chunks, failure) ->
    In None chunks \/ failure <> None ->
    exists r,
      fst (ProjectManagement.analyze_one w im e) = Return r
      /\ (uniform w (draws e) 50 100 - (1 # 20)
          <= ProjectManagement.progress r
          <= uniform w (draws e) 50 100 + (1 # 20))%Q.
Proof.
  intros w im e chunks failure Hw Huri H Hbad.
  destruct (stream_response_raises w _ _ _ e chunks failure H Hbad) as [x Hx].
  destruct (pm_analyze_one_returns w im e) as [r [Hr [Ha Hp]]].
  rewrite Hx in Ha. cbn [draws] in Ha.
  exists r. split; [exact Hr|].
  assert (Hd : (50 <= uniform w (draws e) 50 100 <= 100)%Q) by (apply Hw; discriminate).
  destruct (format_1f_read_back (uniform w (draws e) 50 100) ltac:(lra)) as [q [Hq Hnear]].
  rewrite Ha, (progress_estimate_simulated _ _ Huri Hd), Hq in Hp.
  injection Hp as <-. exact Hnear.
Qed.

Lemma fallback_progress_near_draw_witness :
  exists r,
    fst (ProjectManagement.analyze_one w_down plain_image env0) = Return r
    /\ (uniform w_down (draws env0) 50 100 - (1 # 20)
        <= ProjectManagement.progress r
        <= uniform w_down (draws env0) 50 100 + (1 # 20))%Q.
Proof.
  apply (fallback_progress_near_draw w_down plain_image env0 []
           (Some (Exception "ServerError" "503 Service Unavailable"))).
  - exact w_down_in_range.
  - reflexivity.
  - reflexivity.
  - right. discriminate.
Defined.
